(** * Temperature anomaly analysis: a shallow embedding of [analysis.py]

    The development follows [Project 1 Streamlit/analysis.py]:
    [analyze_city], [analyze_all_cities], [analyze_all_cities_parallel],
    [compute_season_stats] and [check_current_temperature_anomaly].

    Modelling conventions.
    - A data frame is the list of its rows, in positional order.
    - A timestamp is an integer (pandas [datetime64[ns]]).
    - A raised Python exception is the [Raise] branch of [result].
    - The window is a Python integer: [analyze_city] raises [ValueError] for
      a negative one and [OverflowError] for one of [2^63] or more.
    - [sort_values] with the default [kind='quicksort'] returns the rows
      ordered by the key and promises nothing about the order of rows with
      equal keys, so it is an interface ([SortValues]) with the insertion
      sorter [stable_sorter] as its instance.
    - Numbers, in two layers.  In the exact layer a float cell is
      [option R]: [None] is NaN (the way pandas writes an absent value),
      arithmetic is exact, NaN goes through every operation and every
      comparison with it is false.  The statistics of pandas (rolling and
      grouped mean and standard deviation) are given there by their
      mathematical definitions; the theorems proved on this layer are about
      which cells are present, about orders, keys, errors and exact
      identities, or state outright that they hold in exact arithmetic.
      The [Binary64] layer is IEEE 754 double arithmetic; the classifier is
      embedded on it too ([check_current_temperature_anomaly64]), since its
      verdict depends on how the bounds round, and so is the running mean
      of pandas, to show where rounding separates it from the arithmetic
      mean.
    - The input readings ([temperature], the live reading) are finite. *)

From Stdlib Require Import String ZArith Reals Lra Lia Bool Arith List.
From Stdlib Require Import DecimalString SpecFloat.
From Stdlib Require Import Permutation Sorted.
Import ListNotations.

Set Implicit Arguments.

(** ** Exceptions *)

Inductive exn : Set :=
| ValueError     (* pandas: negative rolling window, nothing to concatenate *)
| IndexError     (* pandas: [.iloc[0]] on an empty selection *)
| OverflowError. (* a window that does not fit a signed 64-bit integer *)

Inductive result (A : Type) : Type :=
| Ok (a : A)
| Raise (e : exn).

Arguments Ok {A} a.
Arguments Raise {A} e.

Definition bind {A B : Type} (m : result A) (k : A -> result B) : result B :=
  match m with
  | Ok a => k a
  | Raise e => Raise e
  end.

Notation "x <- m ;; k" := (bind m (fun x => k))
  (at level 61, m at next level, right associativity).

(** ** Float cells with NaN (the exact layer) *)

Module Float.

Definition float : Type := option R.

Definition NaN : float := None.

Definition lift2 (op : R -> R -> R) (a b : float) : float :=
  match a, b with
  | Some x, Some y => Some (op x y)
  | _, _ => None
  end.

Definition add : float -> float -> float := lift2 Rplus.
Definition sub : float -> float -> float := lift2 Rminus.
Definition mul : float -> float -> float := lift2 Rmult.

Definition Rltb (x y : R) : bool := if Rlt_dec x y then true else false.

Definition lt (a b : float) : bool :=
  match a, b with
  | Some x, Some y => Rltb x y
  | _, _ => false
  end.

Definition gt (a b : float) : bool := lt b a.

Definition of_R (x : R) : float := Some x.

End Float.

Import Float.

(** ** Rows *)

Record Row : Type := mkRow {
  city : string;
  timestamp : Z;
  temperature : R;
  season : string
}.

(** A row of the frame [analyze_city] returns: the input columns and the five
    computed ones. *)
Record AnalyzedRow : Type := mkAnalyzed {
  base : Row;
  rolling_mean : float;
  rolling_std : float;
  lower_bound : float;
  upper_bound : float;
  is_anomaly : bool
}.

(** A row of the frame [compute_season_stats] returns. *)
Record SeasonRow : Type := mkSeason {
  s_city : string;
  s_season : string;
  s_mean : float;
  s_std : float
}.

(** ** [DataFrame.sort_values("timestamp")] *)

Definition by_timestamp (a b : Row) : Prop := (timestamp a <= timestamp b)%Z.

Class SortValues : Type := {
  sort_values : list Row -> list Row;
  sort_values_perm : forall df, Permutation df (sort_values df);
  sort_values_sorted : forall df, StronglySorted by_timestamp (sort_values df)
}.

(** ** [Series.rolling(window, min_periods)] *)

Definition Rsum (l : list R) : R := fold_right Rplus 0%R l.

(** The fixed window ending at position [i]: positions
    [max 0 (i + 1 - window) .. i]. *)
Definition window_bounds (window i : nat) : nat * nat :=
  (i + 1 - window, i + 1).

Definition window_values (xs : list R) (window i : nat) : list R :=
  let '(s, e) := window_bounds window i in
  firstn (e - s) (skipn s xs).

(** The aggregations: [mean] needs one observation, [var] with [ddof] delta
    degrees of freedom needs more than [ddof]; otherwise the value is NaN.
    [std] is the square root of [var] with the default [ddof = 1].  These
    are the mathematical definitions, on the exact layer; pandas computes
    them on doubles with running sums ([Binary64.roll_mean] for the rolling
    mean), which agree with them up to rounding. *)
Definition mean_of (w : list R) : float :=
  let nobs := length w in
  if 0 <? nobs then Some (Rsum w / INR nobs)%R else NaN.

Definition var_of (ddof : nat) (w : list R) : float :=
  let nobs := length w in
  if ddof <? nobs
  then
    let m := (Rsum w / INR nobs)%R in
    Some (Rsum (map (fun x => (x - m) * (x - m))%R w) / INR (nobs - ddof))%R
  else NaN.

Definition std_of (w : list R) : float := option_map sqrt (var_of 1 w).

(** A rolling aggregation is NaN when the window holds fewer than
    [min_periods] observations. *)
Definition roll_mean (min_periods : nat) (w : list R) : float :=
  if min_periods <=? length w then mean_of w else NaN.

Definition roll_std (min_periods : nat) (w : list R) : float :=
  if min_periods <=? length w then std_of w else NaN.

Definition rolling (f : list R -> float) (xs : list R) (window : nat)
  : list float :=
  map (fun i => f (window_values xs window i)) (seq 0 (length xs)).

(** ** Column-wise operations *)

Definition zip_with {A B C : Type} (f : A -> B -> C) (l : list A) (l' : list B)
  : list C :=
  map (fun p => f (fst p) (snd p)) (combine l l').

Definition frame_of_columns (rows : list Row)
  (c_mean c_std c_lower c_upper : list float) (c_flag : list bool)
  : list AnalyzedRow :=
  zip_with (fun r rest =>
    let '(m, (s, (lo, (up, fl)))) := rest in mkAnalyzed r m s lo up fl)
    rows
    (combine c_mean (combine c_std (combine c_lower (combine c_upper c_flag)))).

(** ** [analyze_city] *)

Section Analysis.

Context {SV : SortValues}.

(** The window bounds of a series that is not empty are computed on 64-bit
    integers: a window of [2^63] or more raises [OverflowError].  (An empty
    series is returned as it is, whatever the window.) *)
Definition int64_limit : Z := 9223372036854775808.

Definition analyze_city (df_with_city : list Row) (window : Z)
  : result (list AnalyzedRow) :=
  let df_with_city_copy := sort_values df_with_city in
  if (window <? 0)%Z then Raise ValueError
  else if (int64_limit <=? window)%Z && (0 <? length df_with_city_copy)
  then Raise OverflowError
  else
    let w := Z.to_nat window in
    let temps := map temperature df_with_city_copy in
    let c_mean := rolling (roll_mean w) temps w in
    let c_std := rolling (roll_std w) temps w in
    let c_lower := zip_with (fun m s => sub m (mul (of_R 2) s)) c_mean c_std in
    let c_upper := zip_with (fun m s => add m (mul (of_R 2) s)) c_mean c_std in
    let c_flag :=
      zip_with orb
        (zip_with lt (map of_R temps) c_lower)
        (zip_with gt (map of_R temps) c_upper) in
    Ok (frame_of_columns df_with_city_copy c_mean c_std c_lower c_upper c_flag).


(** The row [analyze_city] computes at position [i] from the sorted frame. *)
Definition analyzed_at (df : list Row) (w i : nat) (r0 : Row) : AnalyzedRow :=
  let vals := window_values (map temperature (sort_values df)) w i in
  let m := roll_mean w vals in
  let s := roll_std w vals in
  let lo := sub m (mul (of_R 2) s) in
  let up := add m (mul (of_R 2) s) in
  mkAnalyzed r0 m s lo up
    (lt (of_R (temperature r0)) lo || gt (of_R (temperature r0)) up).

(** ** [analyze_all_cities] and [analyze_all_cities_parallel] *)

(** [Series.unique()]: the distinct values in order of first appearance. *)
Fixpoint unique_from {A : Type} (eqb : A -> A -> bool) (seen l : list A)
  : list A :=
  match l with
  | [] => []
  | x :: t =>
      if existsb (eqb x) seen then unique_from eqb seen t
      else x :: unique_from eqb (x :: seen) t
  end.

Definition unique (l : list string) : list string :=
  unique_from String.eqb [] l.

(** [df[df["city"] == city]] *)
Definition select_city (df : list Row) (c : string) : list Row :=
  filter (fun r => String.eqb (city r) c) df.

(** [pd.concat(results, ignore_index=True)]: raises on an empty list. *)
Definition concat_frames {A : Type} (results : list (list A))
  : result (list A) :=
  match results with
  | [] => Raise ValueError
  | _ => Ok (concat results)
  end.

(** The analysis of one city's partition of [df]. *)
Definition analyze_partition (df : list Row) (window : Z) (c : string)
  : result (list AnalyzedRow) :=
  analyze_city (select_city df c) window.

(** The [for city in cities] loop of [analyze_all_cities], with the
    [results] list it appends to. *)
Fixpoint analyze_loop (df : list Row) (window : Z) (cities : list string)
  (results : list (list AnalyzedRow)) : result (list (list AnalyzedRow)) :=
  match cities with
  | [] => Ok results
  | c :: rest =>
      df_with_city <- analyze_city (select_city df c) window ;;
      analyze_loop df window rest (results ++ [df_with_city])
  end.

Definition analyze_all_cities (df : list Row) (window : Z)
  : result (list AnalyzedRow) :=
  let cities := unique (map city df) in
  results <- analyze_loop df window cities [] ;;
  concat_frames results.

Definition _analyze_city_wrapper (args : list Row * Z)
  : result (list AnalyzedRow) :=
  let '(df_city, window) := args in
  analyze_city df_city window.

(** The [for city in cities] loop of [analyze_all_cities_parallel], with the
    [tasks] list it appends to. *)
Fixpoint tasks_loop (df : list Row) (window : Z) (cities : list string)
  (tasks : list (list Row * Z)) : list (list Row * Z) :=
  match cities with
  | [] => tasks
  | c :: rest =>
      let df_city := select_city df c in
      tasks_loop df window rest (tasks ++ [(df_city, window)])
  end.

End Analysis.

(** [list(executor.map(f, tasks))]: the results in the order of the tasks;
    the exception of the first task (in that order) that raised is raised
    when its result is reached, and no list is built. *)
Fixpoint executor_map {A B : Type} (f : A -> result B) (tasks : list A)
  : result (list B) :=
  match tasks with
  | [] => Ok []
  | t :: rest =>
      r <- f t ;;
      rs <- executor_map f rest ;;
      Ok (r :: rs)
  end.

Section Parallel.

Context {SV : SortValues}.

Definition analyze_all_cities_parallel (df : list Row) (window : Z)
  : result (list AnalyzedRow) :=
  let cities := unique (map city df) in
  let tasks := tasks_loop df window cities [] in
  results <- executor_map _analyze_city_wrapper tasks ;;
  concat_frames results.

End Parallel.

(** ** [compute_season_stats] *)

Definition key : Type := (string * string)%type.

Definition key_of (r : Row) : key := (city r, season r).

Definition key_eqb (a b : key) : bool :=
  String.eqb (fst a) (fst b) && String.eqb (snd a) (snd b).

(** Group keys come out sorted, lexicographically on (city, season). *)
Definition key_leb (a b : key) : bool :=
  match String.compare (fst a) (fst b) with
  | Lt => true
  | Eq => String.leb (snd a) (snd b)
  | Gt => false
  end.

Fixpoint insert_key (k : key) (l : list key) : list key :=
  match l with
  | [] => [k]
  | k' :: t => if key_leb k k' then k :: l else k' :: insert_key k t
  end.

Definition sort_keys (l : list key) : list key := fold_right insert_key [] l.

Definition group_keys (df : list Row) : list key :=
  sort_keys (unique_from key_eqb [] (map key_of df)).

Definition group_values (df : list Row) (k : key) : list R :=
  map temperature (filter (fun r => key_eqb (key_of r) k) df).

(** [df.groupby(["city", "season"])["temperature"].agg(["mean", "std"])
       .reset_index()] *)
Definition compute_season_stats (df : list Row) : list SeasonRow :=
  map (fun k =>
         let g := group_values df k in
         mkSeason (fst k) (snd k) (mean_of g) (std_of g))
      (group_keys df).

(** The (city, season) pair of a row of the table. *)
Definition entry_key (e : SeasonRow) : key := (s_city e, s_season e).

(** ** [check_current_temperature_anomaly] *)

(** The [if month_num in ...] chain. *)
Definition season_of_month (month_num : Z) : string :=
  if existsb (Z.eqb month_num) [12; 1; 2]%Z then "winter"
  else if existsb (Z.eqb month_num) [3; 4; 5]%Z then "spring"
  else if existsb (Z.eqb month_num) [6; 7; 8]%Z then "summer"
  else "autumn".

(** [column.iloc[0]] *)
Definition iloc0 {A : Type} (column : list A) : result A :=
  match column with
  | [] => Raise IndexError
  | x :: _ => Ok x
  end.

(** [datetime.now().month] is the argument [month_num].  This is the
    classifier on the exact layer, for tables built by
    [compute_season_stats]; [check_current_temperature_anomaly64] below is
    the same function on doubles. *)
Definition check_current_temperature_anomaly (month_num : Z)
  (city : string) (current_temp : R) (season_stats : list SeasonRow)
  : result bool :=
  let season := season_of_month month_num in
  let season_filtered :=
    filter (fun r => String.eqb (s_city r) city && String.eqb (s_season r) season)
           season_stats in
  season_mean <- iloc0 (map s_mean season_filtered) ;;
  season_std <- iloc0 (map s_std season_filtered) ;;
  let season_lower_bound := sub season_mean (mul (of_R 2) season_std) in
  let season_upper_bound := add season_mean (mul (of_R 2) season_std) in
  if lt (of_R current_temp) season_lower_bound
     || gt (of_R current_temp) season_upper_bound
  then Ok true
  else Ok false.

(** ** [get_current_temperature_sync] and the weather section of the page

    The reply of the weather service is an argument: [requests_get city
    api_key] stands for [requests.get(url, params=params)].  Of the JSON body
    only [response.json()["main"]["temp"]] is used; [main_temp] is its value,
    or [None] when evaluating it raises (an exception that is not a
    [RuntimeError]). *)

Inductive py_exn : Type :=
| RuntimeError (msg : string)
| BodyError
| AnalysisError (e : exn).

Inductive outcome (A : Type) : Type :=
| Returned (a : A)
| Raised (e : py_exn).

Arguments Returned {A} a.
Arguments Raised {A} e.

Record Response : Type := mkResponse {
  status_code : Z;
  text : string;
  main_temp : option R
}.

(** [f"{n}"] for an integer [n]. *)
Definition str_of_int (n : Z) : string := NilZero.string_of_int (Z.to_int n).

(** [f"HTTP error {response.status_code}: {response.text}"] *)
Definition http_error_message (response : Response) : string :=
  ("HTTP error " ++ str_of_int (status_code response) ++ ": "
     ++ text response)%string.

Definition get_current_temperature_sync
  (requests_get : string -> string -> Response) (city api_key : string)
  : outcome R :=
  let response := requests_get city api_key in
  if negb (status_code response =? 200)%Z
  then Raised (RuntimeError (http_error_message response))
  else
    match main_temp response with
    | Some temp => Returned temp
    | None => Raised BodyError
    end.

(** [needle in hay] for strings. *)
Fixpoint contains (needle hay : string) : bool :=
  String.prefix needle hay
  || match hay with
     | EmptyString => false
     | String _ rest => contains needle rest
     end.

(** What the weather section puts on the page. *)
Inductive shown : Type :=
| WriteAnomalous (city : string) (temp : R)
| WriteNormal (city : string) (temp : R)
| ErrorBadKey
| ErrorWeather (msg : string)
| WarningEnterKey
| Nothing.

(** The [if api_key: try: ... except RuntimeError as e: ... else: ...] block
    of [streamlit_app.py]; [Raised] is an exception that leaves the block. *)
Definition weather_section (requests_get : string -> string -> Response)
  (month_num : Z) (df : list Row) (selected_city : option string)
  (api_key : string) : outcome shown :=
  match api_key with
  | EmptyString => Returned WarningEnterKey
  | String _ _ =>
      let body :=
        match selected_city with
        | None => Returned Nothing
        | Some city =>
            let season_stats := compute_season_stats df in
            match get_current_temperature_sync requests_get city api_key with
            | Raised e => Raised e
            | Returned current_temp =>
                match check_current_temperature_anomaly
                        month_num city current_temp season_stats with
                | Raise e => Raised (AnalysisError e)
                | Ok is_anomaly =>
                    if is_anomaly
                    then Returned (WriteAnomalous city current_temp)
                    else Returned (WriteNormal city current_temp)
                end
            end
        end in
      match body with
      | Raised (RuntimeError msg) =>
          if contains "401" msg then Returned ErrorBadKey
          else Returned (ErrorWeather msg)
      | other => other
      end
  end.

(** Replies of the weather service, for the checks below. *)
Definition reply_unauthorized (city api_key : string) : Response :=
  mkResponse 401 "Invalid API key" None.

Definition reply_server_error (city api_key : string) : Response :=
  mkResponse 500 "upstream answered 401" None.

Definition reply_not_found (city api_key : string) : Response :=
  mkResponse 404 "city not found" None.

Definition reply_temperature (city api_key : string) : Response :=
  mkResponse 200 "" (Some 21%R).

(** The mask [(season_stats["city"] == city) & (season_stats["season"] == season)]. *)
Definition matches (c : string) (s : string) (r : SeasonRow) : bool :=
  String.eqb (s_city r) c && String.eqb (s_season r) s.

(** ** Binary64

    The doubles of the program, as the IEEE 754 binary64 numbers of
    [SpecFloat]: every operation rounds to nearest even.  The classifier is
    embedded a second time on these, and so is the running mean of
    [Series.rolling(...).mean()], which adds the value that enters the window
    to a running sum and subtracts the one that leaves it, both with the
    compensation of Kahan's summation. *)

Module Binary64.

Definition float64 : Type := spec_float.

Definition prec : Z := 53.
Definition emax : Z := 1024.

Definition nan : float64 := S754_nan.

Definition of_Z (n : Z) : float64 := binary_normalize prec emax n 0 false.

Definition add : float64 -> float64 -> float64 := SFadd prec emax.
Definition sub : float64 -> float64 -> float64 := SFsub prec emax.
Definition mul : float64 -> float64 -> float64 := SFmul prec emax.
Definition div : float64 -> float64 -> float64 := SFdiv prec emax.
Definition opp : float64 -> float64 := SFopp.
Definition ltb : float64 -> float64 -> bool := SFltb.
Definition eqb : float64 -> float64 -> bool := SFeqb.

Definition is_nan (x : float64) : bool :=
  match x with
  | S754_nan => true
  | _ => false
  end.

Definition signbit (x : float64) : bool :=
  match x with
  | S754_zero s | S754_infinity s | S754_finite s _ _ => s
  | S754_nan => false
  end.

(** The state of the running mean. *)
Record mean_state : Type := mkMeanState {
  ms_nobs : nat;
  ms_sum_x : float64;
  ms_neg_ct : nat;
  ms_compensation_add : float64;
  ms_compensation_remove : float64;
  ms_num_consecutive_same_value : nat;
  ms_prev_value : float64
}.

Definition add_mean (val : float64) (st : mean_state) : mean_state :=
  if is_nan val then st
  else
    let y := sub val (ms_compensation_add st) in
    let t := add (ms_sum_x st) y in
    mkMeanState
      (S (ms_nobs st))
      t
      (if signbit val then S (ms_neg_ct st) else ms_neg_ct st)
      (sub (sub t (ms_sum_x st)) y)
      (ms_compensation_remove st)
      (if eqb val (ms_prev_value st)
       then S (ms_num_consecutive_same_value st) else 1)
      val.

Definition remove_mean (val : float64) (st : mean_state) : mean_state :=
  if is_nan val then st
  else
    let y := sub (opp val) (ms_compensation_remove st) in
    let t := add (ms_sum_x st) y in
    mkMeanState
      (Nat.pred (ms_nobs st))
      t
      (if signbit val then Nat.pred (ms_neg_ct st) else ms_neg_ct st)
      (ms_compensation_add st)
      (sub (sub t (ms_sum_x st)) y)
      (ms_num_consecutive_same_value st)
      (ms_prev_value st).

Definition calc_mean (minp : nat) (st : mean_state) : float64 :=
  if (minp <=? ms_nobs st) && (0 <? ms_nobs st)
  then
    let result := div (ms_sum_x st) (of_Z (Z.of_nat (ms_nobs st))) in
    if ms_nobs st <=? ms_num_consecutive_same_value st
    then ms_prev_value st
    else if (ms_neg_ct st =? 0) && ltb result (of_Z 0) then of_Z 0
    else if (ms_neg_ct st =? ms_nobs st) && ltb (of_Z 0) result then of_Z 0
    else result
  else nan.

(** The values at positions [s .. e - 1]. *)
Definition slice (values : list float64) (s e : nat) : list float64 :=
  firstn (e - s) (skipn s values).

(** One position of the loop: the window [s .. e - 1] is set up afresh at
    the first position (and whenever it shares nothing with the previous
    one); otherwise the values that left are removed and those that entered
    are added. *)
Definition mean_step (values : list float64) (window minp : nat)
  (acc : mean_state * (nat * nat) * list float64) (i : nat)
  : mean_state * (nat * nat) * list float64 :=
  let '(st, (prev_s, prev_e), output) := acc in
  let e := i + 1 in
  let s := e - window in
  let st' :=
    if (i =? 0) || (prev_e <=? s)
    then
      fold_left (fun st val => add_mean val st) (slice values s e)
        (mkMeanState 0 (of_Z 0) 0 (of_Z 0) (of_Z 0) 0 (nth s values nan))
    else
      fold_left (fun st val => add_mean val st) (slice values prev_e e)
        (fold_left (fun st val => remove_mean val st)
                   (slice values prev_s s) st) in
  (st', (s, e), output ++ [calc_mean minp st']).

Definition roll_mean (values : list float64) (window minp : nat)
  : list float64 :=
  snd (fold_left (mean_step values window minp) (seq 0 (length values))
         (mkMeanState 0 (of_Z 0) 0 (of_Z 0) (of_Z 0) 0 nan, (0, 0), [])).

End Binary64.

(** [temperature.rolling(window=window, min_periods=window).mean()], the
    [rolling_mean] column of [analyze_city], on doubles. *)
Definition rolling_mean64 (temperature : list Binary64.float64)
  (window : nat) : list Binary64.float64 :=
  Binary64.roll_mean temperature window window.

(** A row of a table of seasonal baselines, on doubles. *)
Record SeasonRow64 : Type := mkSeason64 {
  b_city : string;
  b_season : string;
  b_mean : Binary64.float64;
  b_std : Binary64.float64
}.

Definition matches64 (c : string) (s : string) (r : SeasonRow64) : bool :=
  String.eqb (b_city r) c && String.eqb (b_season r) s.

(** [check_current_temperature_anomaly] on doubles: [2 * season_std] and
    the two bounds are rounded as the program rounds them. *)
Definition check_current_temperature_anomaly64 (month_num : Z)
  (city : string) (current_temp : Binary64.float64)
  (season_stats : list SeasonRow64) : result bool :=
  let season := season_of_month month_num in
  let season_filtered :=
    filter (fun r => String.eqb (b_city r) city && String.eqb (b_season r) season)
           season_stats in
  season_mean <- iloc0 (map b_mean season_filtered) ;;
  season_std <- iloc0 (map b_std season_filtered) ;;
  let season_lower_bound :=
    Binary64.sub season_mean (Binary64.mul (Binary64.of_Z 2) season_std) in
  let season_upper_bound :=
    Binary64.add season_mean (Binary64.mul (Binary64.of_Z 2) season_std) in
  if Binary64.ltb current_temp season_lower_bound
     || Binary64.ltb season_upper_bound current_temp
  then Ok true
  else Ok false.

(** One tenth, as the double nearest to it. *)
Definition tenth : Binary64.float64 :=
  Binary64.div (Binary64.of_Z 1) (Binary64.of_Z 10).

Definition sample_baselines64 : list SeasonRow64 :=
  [ mkSeason64 "CityA" "summer" (Binary64.of_Z 25) (Binary64.of_Z 3);
    mkSeason64 "CityA" "winter" (Binary64.of_Z 20) (Binary64.of_Z 5);
    mkSeason64 "CityB" "winter" tenth tenth ].

(** Readings among which one is far larger than the others. *)
Definition cancelling_series : list Binary64.float64 :=
  map Binary64.of_Z [1; 10000000000000000; 2; 2; 3]%Z.


(** ** A sorter

    [stable_sort] orders the rows by timestamp by insertion and keeps rows
    with equal timestamps in input order. *)

Fixpoint insert_row (before : Z -> Z -> bool) (x : Row) (l : list Row)
  : list Row :=
  match l with
  | [] => [x]
  | y :: t =>
      if before (timestamp x) (timestamp y) then x :: l
      else y :: insert_row before x t
  end.


Definition insertion_sorter (before : Z -> Z -> bool)
  (Hlt : forall a b, (a < b)%Z -> before a b = true)
  (Hgt : forall a b, (b < a)%Z -> before a b = false) : SortValues.
Proof.
  assert (Hperm : forall x l, Permutation (x :: l) (insert_row before x l)).
  { intros x l; induction l as [|y t IH]; simpl; [reflexivity|].
    destruct (before _ _); [reflexivity|].
    rewrite perm_swap. now apply perm_skip. }
  assert (Hsorted : forall x l, StronglySorted by_timestamp l ->
                                StronglySorted by_timestamp (insert_row before x l)).
  { intros x l; induction 1 as [|y t Hs IH Hall]; simpl.
    - constructor; constructor.
    - destruct (before (timestamp x) (timestamp y)) eqn:E.
      + assert (Hxy : (timestamp x <= timestamp y)%Z).
        { destruct (Z_lt_le_dec (timestamp y) (timestamp x)) as [Hc|Hc];
            [rewrite (Hgt _ _ Hc) in E; discriminate | exact Hc]. }
        constructor; [now constructor|].
        constructor; [exact Hxy|].
        eapply Forall_impl; [|exact Hall].
        unfold by_timestamp; intros; lia.
      + assert (Hyx : (timestamp y <= timestamp x)%Z).
        { destruct (Z_lt_le_dec (timestamp x) (timestamp y)) as [Hc|Hc];
            [rewrite (Hlt _ _ Hc) in E; discriminate | exact Hc]. }
        constructor; [exact IH|].
        eapply Permutation_Forall; [apply Hperm|].
        constructor; assumption. }
  refine {| sort_values := fold_right (insert_row before) [] |}.
  - induction df as [|x t IH]; simpl; [reflexivity|].
    etransitivity; [apply perm_skip, IH|apply Hperm].
  - induction df as [|x t IH]; simpl; [constructor|now apply Hsorted].
Defined.

Definition stable_sorter : SortValues :=
  insertion_sorter Z.leb
    (fun a b H => proj2 (Z.leb_le a b) (Z.lt_le_incl a b H))
    (fun a b H => proj2 (Z.leb_gt a b) H).

(** ** Sample frames *)

Definition sample_frame : list Row :=
  [ mkRow "Berlin" 3 4 "winter";
    mkRow "Cairo" 1 20 "winter";
    mkRow "Berlin" 1 2 "winter";
    mkRow "Berlin" 2 6 "winter";
    mkRow "Cairo" 2 22 "winter";
    mkRow "Berlin" 4 5 "spring" ].


Definition single_reading : list Row := [ mkRow "Oslo" 1 5 "summer" ].

Definition tied_frame : list Row :=
  [ mkRow "Oslo" 0 1 "winter"; mkRow "Oslo" 0 2 "winter" ].

Definition sample_baselines : list SeasonRow :=
  [ mkSeason "CityA" "summer" (Some 25%R) (Some 3%R);
    mkSeason "CityA" "winter" (Some 20%R) (Some 5%R) ].

(** ** The statistics the specification names *)

(** The values at positions [i - W + 1 .. i] of [xs]. *)
Definition trailing (xs : list R) (W i : nat) : list R :=
  map (fun k => nth k xs 0%R) (seq (i + 1 - W) W).

Definition arithmetic_mean (l : list R) : R := (Rsum l / INR (length l))%R.

Definition sum_sq_dev (l : list R) : R :=
  Rsum (map (fun x => (x - arithmetic_mean l) ^ 2)%R l).

(** The sample standard deviation, divisor [length l - 1]; undefined (NaN)
    when that divisor is zero. *)
Definition sample_std_dev (l : list R) : float :=
  if length l - 1 =? 0 then NaN
  else Some (sqrt (sum_sq_dev l / INR (length l - 1))).

(** * Properties *)

(** ** Lists, columns and windows *)

Lemma nth_error_combine {A B : Type} (l : list A) (l' : list B) (n : nat) :
  nth_error (combine l l') n =
  match nth_error l n, nth_error l' n with
  | Some a, Some b => Some (a, b)
  | _, _ => None
  end.
Proof.
  revert l' n; induction l as [|a l IH]; intros [|b l'] [|n]; simpl; auto.
  - now destruct (nth_error l n).
Qed.

Lemma nth_error_zip_with {A B C : Type} (f : A -> B -> C) l l' n :
  nth_error (zip_with f l l') n =
  match nth_error l n, nth_error l' n with
  | Some a, Some b => Some (f a b)
  | _, _ => None
  end.
Proof.
  unfold zip_with. rewrite nth_error_map, nth_error_combine.
  destruct (nth_error l n), (nth_error l' n); reflexivity.
Qed.

Lemma length_zip_with {A B C : Type} (f : A -> B -> C) l l' :
  length (zip_with f l l') = Nat.min (length l) (length l').
Proof. unfold zip_with. now rewrite length_map, length_combine. Qed.

Lemma length_rolling f xs window : length (rolling f xs window) = length xs.
Proof. unfold rolling. now rewrite length_map, length_seq. Qed.

Lemma nth_error_rolling f xs window i :
  i < length xs ->
  nth_error (rolling f xs window) i = Some (f (window_values xs window i)).
Proof.
  intros Hi. unfold rolling.
  rewrite nth_error_map, nth_error_seq.
  destruct (Nat.ltb_spec i (length xs)); [reflexivity|lia].
Qed.

Lemma firstn_as_nth (d : R) (xs : list R) (n : nat) :
  n <= length xs ->
  firstn n xs = map (fun k => nth k xs d) (seq 0 n).
Proof.
  revert n; induction xs as [|x xs IH]; intros [|n] Hn; simpl in *;
    try reflexivity; try lia.
  rewrite <- seq_shift, map_map. f_equal. apply IH. lia.
Qed.

Lemma slice_as_nth (d : R) (xs : list R) (s n : nat) :
  s + n <= length xs ->
  firstn n (skipn s xs) = map (fun k => nth k xs d) (seq s n).
Proof.
  revert s; induction xs as [|x xs IH]; intros [|s] Hn.
  - now apply firstn_as_nth.
  - simpl in Hn; lia.
  - now apply firstn_as_nth.
  - simpl skipn. rewrite <- seq_shift, map_map. simpl.
    apply IH. simpl in Hn. lia.
Qed.

(** A full window is the [window] values that end at position [i]. *)
Lemma window_values_full (xs : list R) (window i : nat) :
  window <= i + 1 -> i < length xs ->
  window_values xs window i = trailing xs window i.
Proof.
  intros Hw Hi. unfold window_values, window_bounds, trailing.
  replace (i + 1 - (i + 1 - window)) with window by lia.
  apply slice_as_nth. lia.
Qed.

Lemma length_trailing xs W i : length (trailing xs W i) = W.
Proof. unfold trailing. now rewrite length_map, length_seq. Qed.

(** Near the start the window is cut short: it holds [i + 1] values. *)
Lemma length_window_values_short (xs : list R) (window i : nat) :
  i + 1 <= window -> i < length xs ->
  length (window_values xs window i) = i + 1.
Proof.
  intros Hw Hi. unfold window_values, window_bounds.
  replace (i + 1 - window) with 0 by lia.
  simpl skipn. rewrite length_firstn. lia.
Qed.

Lemma roll_mean_full (W : nat) (w : list R) :
  length w = W -> 1 <= W -> roll_mean W w = Some (arithmetic_mean w).
Proof.
  intros Hl HW. unfold roll_mean, mean_of, arithmetic_mean.
  rewrite Hl, Nat.leb_refl.
  destruct (Nat.ltb_spec 0 W); [reflexivity|lia].
Qed.

Lemma roll_std_full (W : nat) (w : list R) :
  length w = W -> roll_std W w = sample_std_dev w.
Proof.
  intros Hl. unfold roll_std, std_of, var_of, sample_std_dev.
  rewrite Hl, Nat.leb_refl.
  destruct (Nat.ltb_spec 1 W) as [H|H];
    destruct (Nat.eqb_spec (W - 1) 0) as [H0|H0]; try lia; simpl.
  - do 3 f_equal. unfold sum_sq_dev, arithmetic_mean. rewrite Hl.
    f_equal. apply map_ext. intros x. ring.
  - reflexivity.
Qed.

Lemma roll_mean_short (W : nat) (w : list R) :
  length w < W -> roll_mean W w = NaN.
Proof.
  intros H. unfold roll_mean.
  destruct (Nat.leb_spec W (length w)); [lia|reflexivity].
Qed.

Lemma roll_std_short (W : nat) (w : list R) :
  length w < W -> roll_std W w = NaN.
Proof.
  intros H. unfold roll_std.
  destruct (Nat.leb_spec W (length w)); [lia|reflexivity].
Qed.

(** ** [analyze_city], row by row *)

Section AnalyzeCity.

Context {SV : SortValues}.

Lemma length_sort_values (df : list Row) :
  length (sort_values df) = length df.
Proof. symmetry. apply Permutation_length, sort_values_perm. Qed.

Lemma analyze_city_Ok (df : list Row) (window : Z) :
  (0 <= window < int64_limit)%Z -> exists res, analyze_city df window = Ok res.
Proof.
  intros Hw. unfold analyze_city.
  destruct (Z.ltb_spec window 0); [lia|].
  destruct (Z.leb_spec int64_limit window); [lia|]. eexists; reflexivity.
Qed.

(** What [analyze_city] raises depends on the window alone, for frames that
    are not empty. *)
Lemma analyze_city_Raise (df : list Row) (window : Z) (e : exn) :
  analyze_city df window = Raise e ->
  ((window < 0)%Z /\ e = ValueError) \/
  ((int64_limit <= window)%Z /\ df <> [] /\ e = OverflowError).
Proof.
  unfold analyze_city. destruct (Z.ltb_spec window 0).
  - intros [= <-]. left. split; [assumption|reflexivity].
  - destruct (Z.leb_spec int64_limit window); simpl; [|discriminate].
    destruct (Nat.ltb_spec 0 (length (sort_values df))) as [Hlen|];
      [|discriminate].
    intros [= <-]. right. split; [assumption|]. split; [|reflexivity].
    intros ->. rewrite length_sort_values in Hlen. simpl in Hlen. lia.
Qed.

Lemma analyze_city_negative (df : list Row) (window : Z) :
  (window < 0)%Z -> analyze_city df window = Raise ValueError.
Proof.
  intros Hw. unfold analyze_city.
  destruct (Z.ltb_spec window 0); [reflexivity|lia].
Qed.

Lemma analyze_city_overflow (df : list Row) (window : Z) :
  df <> [] -> (int64_limit <= window)%Z ->
  analyze_city df window = Raise OverflowError.
Proof.
  intros Hdf Hw. unfold analyze_city.
  destruct (Z.ltb_spec window 0); [unfold int64_limit in Hw; lia|].
  destruct (Z.leb_spec int64_limit window); [|lia]. simpl.
  destruct (Nat.ltb_spec 0 (length (sort_values df))) as [|Hlen];
    [reflexivity|].
  rewrite length_sort_values in Hlen. destruct df; [contradiction|].
  simpl in Hlen. lia.
Qed.

Lemma analyze_city_Raise_any (df df' : list Row) (window : Z) (e : exn) :
  df' <> [] ->
  analyze_city df window = Raise e -> analyze_city df' window = Raise e.
Proof.
  intros Hdf' H. apply analyze_city_Raise in H as [[Hw ->]|(Hw & _ & ->)].
  - now apply analyze_city_negative.
  - now apply analyze_city_overflow.
Qed.

Lemma analyze_city_length (df : list Row) (window : Z) res :
  analyze_city df window = Ok res -> length res = length df.
Proof.
  unfold analyze_city. destruct (window <? 0)%Z; [discriminate|].
  destruct ((int64_limit <=? window)%Z && _); [discriminate|].
  intros [= <-]. unfold frame_of_columns.
  rewrite length_zip_with, !length_combine, !length_zip_with, !length_rolling,
    !length_map, length_sort_values.
  lia.
Qed.

Lemma analyze_city_nth (df : list Row) (window : Z) res (i : nat) (r0 : Row) :
  analyze_city df window = Ok res ->
  nth_error (sort_values df) i = Some r0 ->
  nth_error res i = Some (analyzed_at df (Z.to_nat window) i r0).
Proof.
  unfold analyze_city. destruct (window <? 0)%Z; [discriminate|].
  destruct ((int64_limit <=? window)%Z && _); [discriminate|].
  intros [= <-] Hr0.
  assert (Hi : i < length (map temperature (sort_values df))).
  { rewrite length_map. apply nth_error_Some. congruence. }
  unfold frame_of_columns.
  rewrite nth_error_zip_with, Hr0, !nth_error_combine.
  rewrite !nth_error_zip_with, !nth_error_map, Hr0.
  rewrite !nth_error_rolling by exact Hi.
  reflexivity.
Qed.

Lemma analyze_city_base (df : list Row) (window : Z) res :
  analyze_city df window = Ok res -> map base res = sort_values df.
Proof.
  intros H. apply nth_error_ext. intros i. rewrite nth_error_map.
  destruct (nth_error (sort_values df) i) as [r0|] eqn:E.
  - now rewrite (analyze_city_nth _ _ _ H E).
  - apply nth_error_None in E. rewrite length_sort_values in E.
    rewrite <- (analyze_city_length _ _ H) in E.
    apply nth_error_None in E. now rewrite E.
Qed.

Lemma analyze_city_flag (df : list Row) (window : Z) res (i : nat) r :
  analyze_city df window = Ok res ->
  nth_error res i = Some r ->
  is_anomaly r =
    lt (of_R (temperature (base r))) (lower_bound r)
    || gt (of_R (temperature (base r))) (upper_bound r).
Proof.
  intros Hres Hnth.
  destruct (nth_error (sort_values df) i) as [r0|] eqn:E.
  - rewrite (analyze_city_nth _ _ _ Hres E) in Hnth.
    injection Hnth as <-. reflexivity.
  - apply nth_error_None in E. rewrite length_sort_values in E.
    rewrite <- (analyze_city_length _ _ Hres) in E.
    apply nth_error_None in E. congruence.
Qed.

End AnalyzeCity.

(** ** Rolling statistics (claims C1, C2) *)

Section RollingClaims.

Context {SV : SortValues}.

Lemma sorted_row_exists (df : list Row) (i : nat) :
  i < length df -> exists r0, nth_error (sort_values df) i = Some r0.
Proof.
  intros Hi. destruct (nth_error (sort_values df) i) eqn:E; [eauto|].
  apply nth_error_None in E. rewrite length_sort_values in E. lia.
Qed.

(** The row at a position where the window is full. *)
Lemma analyze_city_full_window (df : list Row) (W : Z) (i : nat) :
  (1 <= W < int64_limit)%Z -> (W <= Z.of_nat (length df))%Z ->
  (W - 1 <= Z.of_nat i)%Z -> i < length df ->
  let vals := trailing (map temperature (sort_values df)) (Z.to_nat W) i in
  exists res r,
    analyze_city df W = Ok res /\
    nth_error res i = Some r /\
    nth_error (sort_values df) i = Some (base r) /\
    rolling_mean r = Some (arithmetic_mean vals) /\
    rolling_std r = sample_std_dev vals /\
    lower_bound r = sub (rolling_mean r) (mul (of_R 2) (rolling_std r)) /\
    upper_bound r = add (rolling_mean r) (mul (of_R 2) (rolling_std r)) /\
    lower_bound r =
      sub (Some (arithmetic_mean vals)) (mul (of_R 2) (sample_std_dev vals)) /\
    upper_bound r =
      add (Some (arithmetic_mean vals)) (mul (of_R 2) (sample_std_dev vals)).
Proof.
  intros HW1 HWlen HWi Hi vals.
  destruct (analyze_city_Ok df (window := W)) as [res Hres]; [lia|].
  destruct (sorted_row_exists df Hi) as [r0 Hr0].
  exists res, (analyzed_at df (Z.to_nat W) i r0).
  pose proof (analyze_city_nth _ _ _ Hres Hr0) as Hnth.
  assert (Hwin : window_values (map temperature (sort_values df)) (Z.to_nat W) i
                 = vals).
  { apply window_values_full; [lia|].
    now rewrite length_map, length_sort_values. }
  assert (Hm : rolling_mean (analyzed_at df (Z.to_nat W) i r0)
               = Some (arithmetic_mean vals)).
  { unfold analyzed_at; simpl. rewrite Hwin.
    apply roll_mean_full; [apply length_trailing|lia]. }
  assert (Hs : rolling_std (analyzed_at df (Z.to_nat W) i r0)
               = sample_std_dev vals).
  { unfold analyzed_at; simpl. rewrite Hwin.
    apply roll_std_full, length_trailing. }
  repeat split; try assumption; try reflexivity.
  - rewrite <- Hm, <- Hs. reflexivity.
  - rewrite <- Hm, <- Hs. reflexivity.
Qed.


(** C2, as amended. For a window [W > 0] that fits 64 bits and a sorted
    position [i] with [i + 1 < W], the row [analyze_city] returns at [i] has
    [rolling_mean], [rolling_std], [lower_bound] and [upper_bound] all NaN
    (absent) and [is_anomaly] false. *)
Theorem C2_short_window_absent (df : list Row) (W : Z) (i : nat) :
  (0 < W < int64_limit)%Z -> (Z.of_nat i + 1 < W)%Z -> i < length df ->
  exists res r,
    analyze_city df W = Ok res /\
    nth_error res i = Some r /\
    rolling_mean r = NaN /\
    rolling_std r = NaN /\
    lower_bound r = NaN /\
    upper_bound r = NaN /\
    is_anomaly r = false.
Proof.
  intros HW HiW Hi.
  destruct (analyze_city_Ok df (window := W)) as [res Hres]; [lia|].
  destruct (sorted_row_exists df Hi) as [r0 Hr0].
  exists res, (analyzed_at df (Z.to_nat W) i r0).
  pose proof (analyze_city_nth _ _ _ Hres Hr0) as Hnth.
  assert (Hlen : length (window_values (map temperature (sort_values df))
                           (Z.to_nat W) i) < Z.to_nat W).
  { rewrite length_window_values_short; [lia|lia|].
    now rewrite length_map, length_sort_values. }
  split; [exact Hres|]. split; [exact Hnth|].
  unfold analyzed_at; simpl.
  rewrite (roll_mean_short _ Hlen), (roll_std_short _ Hlen).
  repeat split; reflexivity.
Qed.

End RollingClaims.

(** ** Constant windows and windows of one value (claims C7, C8) *)







Section WindowClaims.

Context {SV : SortValues}.


(** C8, as amended. With [W = 1] the row at every position [i] has
    [rolling_mean] equal to its own value; [rolling_std] is NaN (one
    observation has no sample deviation), so both bounds are NaN too, and
    [is_anomaly] is false. *)
Theorem C8_window_one (df : list Row) (i : nat) :
  i < length df ->
  exists res r,
    analyze_city df 1 = Ok res /\
    nth_error res i = Some r /\
    nth_error (sort_values df) i = Some (base r) /\
    rolling_mean r = Some (temperature (base r)) /\
    rolling_std r = NaN /\
    lower_bound r = NaN /\
    upper_bound r = NaN /\
    is_anomaly r = false.
Proof.
  intros Hi.
  destruct (analyze_city_full_window df (W := 1%Z) (i := i))
    as (res & r & Hres & Hnth & Hbase & Hm & Hs & _ & _ & Hlo & Hup);
    try (unfold int64_limit; lia).
  exists res, r.
  assert (Hval : nth i (map temperature (sort_values df)) 0%R
                 = temperature (base r)).
  { apply nth_error_nth. now rewrite nth_error_map, Hbase. }
  change (Z.to_nat 1) with 1 in *.
  unfold trailing in *. replace (i + 1 - 1) with i in * by lia.
  simpl map in *. rewrite Hval in *.
  assert (Hlo' : lower_bound r = NaN) by (rewrite Hlo; reflexivity).
  assert (Hup' : upper_bound r = NaN) by (rewrite Hup; reflexivity).
  repeat split; try assumption.
  - rewrite Hm. f_equal. unfold arithmetic_mean. simpl. field.
  - rewrite (analyze_city_flag _ _ _ Hres Hnth), Hlo', Hup'. reflexivity.
Qed.

End WindowClaims.

(** ** The rolling claims on the sample frames *)


Lemma C2_witness :
  (0 < 3 < int64_limit)%Z /\ (Z.of_nat 1 + 1 < 3)%Z /\
  1 < length sample_frame /\
  exists res r,
    @analyze_city stable_sorter sample_frame 3 = Ok res /\
    nth_error res 1 = Some r /\
    rolling_mean r = NaN /\
    rolling_std r = NaN /\
    lower_bound r = NaN /\
    upper_bound r = NaN /\
    is_anomaly r = false.
Proof.
  split; [unfold int64_limit; lia|]. split; [lia|]. split; [simpl; lia|].
  apply (@C2_short_window_absent stable_sorter sample_frame 3 1);
    unfold int64_limit; simpl; lia.
Defined.

(** C2 as stated fails at a window beyond 64 bits: [analyze_city] raises, so
    there is no row at position 0 to have absent statistics. *)
Lemma C2_counterexample :
  (0 < int64_limit)%Z /\ (Z.of_nat 0 + 1 < int64_limit)%Z /\
  0 < length sample_frame /\
  @analyze_city stable_sorter sample_frame int64_limit = Raise OverflowError /\
  forall res, @analyze_city stable_sorter sample_frame int64_limit <> Ok res.
Proof.
  split; [unfold int64_limit; lia|]. split; [unfold int64_limit; lia|].
  split; [simpl; lia|]. split; [reflexivity|]. discriminate.
Qed.



Lemma C8_witness :
  0 < length sample_frame /\
  exists res r,
    @analyze_city stable_sorter sample_frame 1 = Ok res /\
    nth_error res 0 = Some r /\
    nth_error (@sort_values stable_sorter sample_frame) 0 = Some (base r) /\
    rolling_mean r = Some (temperature (base r)) /\
    rolling_std r = NaN /\
    lower_bound r = NaN /\
    upper_bound r = NaN /\
    is_anomaly r = false.
Proof.
  split; [simpl; lia|].
  apply (@C8_window_one stable_sorter sample_frame 0). simpl; lia.
Defined.

(** C8 as stated fails: with [W = 1] the deviation of the single reading is
    NaN, not 0, and the bounds are NaN, not the reading. *)
Lemma C8_counterexample :
  exists res r,
    @analyze_city stable_sorter single_reading 1 = Ok res /\
    nth_error res 0 = Some r /\
    rolling_mean r = Some (5 / 1)%R /\
    rolling_std r = NaN /\ rolling_std r <> Some 0%R /\
    lower_bound r = NaN /\ lower_bound r <> rolling_mean r /\
    upper_bound r = NaN /\ upper_bound r <> rolling_mean r.
Proof.
  eexists; eexists. split; [reflexivity|]. split; [reflexivity|].
  simpl. unfold roll_mean, roll_std, mean_of, std_of, var_of; simpl.
  repeat split; try reflexivity; try discriminate.
  f_equal. lra.
Qed.

(** ** The list of cities *)

Lemma unique_from_spec {A : Type} (eqb : A -> A -> bool)
  (Heqb : forall a b, eqb a b = true <-> a = b) (l seen : list A) :
  NoDup (unique_from eqb seen l) /\
  forall k, In k (unique_from eqb seen l) <-> In k l /\ ~ In k seen.
Proof.
  revert seen; induction l as [|x l IH]; intros seen; simpl.
  - split; [constructor|]. intros k; tauto.
  - destruct (existsb (eqb x) seen) eqn:E.
    + destruct (IH seen) as [Hnd Hin]. split; [exact Hnd|].
      intros k. rewrite Hin. split; [tauto|].
      intros [[->|Hk] Hs]; [|tauto].
      apply existsb_exists in E as (y & Hy & Hxy).
      apply Heqb in Hxy. subst y. contradiction.
    + assert (Hx : ~ In x seen).
      { intros Hx. apply not_true_iff_false in E. apply E.
        apply existsb_exists. exists x. split; [exact Hx|now apply Heqb]. }
      destruct (IH (x :: seen)) as [Hnd Hin]. split.
      * constructor; [|exact Hnd]. rewrite Hin. simpl. tauto.
      * intros k. simpl. rewrite Hin. simpl. split.
        -- intros [->|[Hk Hs]]; tauto.
        -- intros [[->|Hk] Hs]; [now left|].
           destruct (eqb x k) eqn:Exk.
           ++ apply Heqb in Exk. now left.
           ++ right. split; [exact Hk|]. intros [->|H]; [|contradiction].
              assert (eqb k k = true) by now apply Heqb. congruence.
Qed.

Lemma unique_NoDup (l : list string) : NoDup (unique l).
Proof. apply (unique_from_spec String.eqb String.eqb_eq l []). Qed.

Lemma unique_In (l : list string) (c : string) : In c (unique l) <-> In c l.
Proof.
  unfold unique.
  rewrite (proj2 (unique_from_spec String.eqb String.eqb_eq l [])).
  simpl. tauto.
Qed.

Lemma select_city_nonempty (df : list Row) (c : string) :
  In c (unique (map city df)) -> select_city df c <> [].
Proof.
  intros Hc. apply unique_In, in_map_iff in Hc as (r & Hr & Hin).
  intros E.
  assert (H : In r (select_city df c)).
  { apply filter_In. split; [exact Hin|]. now apply String.eqb_eq. }
  rewrite E in H. exact H.
Qed.

(** ** The executor *)

Lemma executor_map_map {A B C : Type} (g : A -> B) (f : B -> result C) l :
  executor_map f (map g l) = executor_map (fun a => f (g a)) l.
Proof.
  induction l as [|a l IH]; simpl; [reflexivity|].
  destruct (f (g a)); simpl; [|reflexivity]. now rewrite IH.
Qed.

(** All tasks before [t] return and [t] raises: the call raises what [t]
    raised. *)
Lemma executor_map_first_failure {A B : Type} (f : A -> result B)
  (pre post : list A) (t : A) (e : exn) :
  Forall (fun x => exists r, f x = Ok r) pre ->
  f t = Raise e ->
  executor_map f (pre ++ t :: post) = Raise e.
Proof.
  induction 1 as [|x pre [r Hx] _ IH]; intros Ht; simpl.
  - now rewrite Ht.
  - rewrite Hx; simpl. now rewrite (IH Ht).
Qed.

(** Some task raises: the call raises, with the exception of a task. *)
Lemma executor_map_some_failure {A B : Type} (f : A -> result B)
  (tasks : list A) :
  Exists (fun t => exists e, f t = Raise e) tasks ->
  exists t e, In t tasks /\ f t = Raise e /\ executor_map f tasks = Raise e.
Proof.
  induction tasks as [|t tasks IH]; intros Hex; [inversion Hex|].
  destruct (f t) as [r|e] eqn:Ht.
  - inversion Hex as [? ? [e He]|? ? Hex']; subst; [congruence|].
    destruct (IH Hex') as (t' & e' & Hin & Hf & Hmap).
    exists t', e'. split; [now right|]. split; [exact Hf|].
    simpl. rewrite Ht; simpl. now rewrite Hmap.
  - exists t, e. split; [now left|]. split; [exact Ht|].
    simpl. now rewrite Ht.
Qed.

(** The call returns: every task returned, and the results are in the order
    of the tasks. *)
Lemma executor_map_Ok {A B : Type} (f : A -> result B) (tasks : list A) rs :
  executor_map f tasks = Ok rs -> Forall2 (fun t r => f t = Ok r) tasks rs.
Proof.
  revert rs; induction tasks as [|t tasks IH]; intros rs; simpl.
  - intros [= <-]. constructor.
  - destruct (f t) as [r|e] eqn:Ht; simpl; [|discriminate].
    destruct (executor_map f tasks) as [rs'|e]; simpl; [|discriminate].
    intros [= <-]. constructor; [exact Ht|now apply IH].
Qed.

(** ** Serial and parallel runs (claims C3, C6) *)

Section AllCities.

Context {SV : SortValues}.

Lemma analyze_loop_executor (df : list Row) (window : Z) cities results :
  analyze_loop df window cities results =
  (rs <- executor_map (analyze_partition df window) cities ;;
   Ok (results ++ rs)).
Proof.
  revert results; induction cities as [|c cities IH]; intros results; simpl.
  - now rewrite app_nil_r.
  - unfold analyze_partition at 1.
    destruct (analyze_city (select_city df c) window) as [r|e]; simpl;
      [|reflexivity].
    rewrite IH.
    destruct (executor_map (analyze_partition df window) cities); simpl;
      [|reflexivity].
    now rewrite <- app_assoc.
Qed.

Lemma tasks_loop_map (df : list Row) (window : Z) cities tasks :
  tasks_loop df window cities tasks =
  tasks ++ map (fun c => (select_city df c, window)) cities.
Proof.
  revert tasks; induction cities as [|c cities IH]; intros tasks; simpl.
  - now rewrite app_nil_r.
  - rewrite IH. now rewrite <- app_assoc.
Qed.

Lemma analyze_all_cities_executor (df : list Row) (window : Z) :
  analyze_all_cities df window =
  (rs <- executor_map (analyze_partition df window) (unique (map city df)) ;;
   concat_frames rs).
Proof.
  unfold analyze_all_cities. rewrite analyze_loop_executor.
  now destruct (executor_map _ _).
Qed.

Lemma analyze_all_cities_parallel_executor (df : list Row) (window : Z) :
  analyze_all_cities_parallel df window =
  (rs <- executor_map (analyze_partition df window) (unique (map city df)) ;;
   concat_frames rs).
Proof.
  unfold analyze_all_cities_parallel.
  rewrite tasks_loop_map. simpl app. now rewrite executor_map_map.
Qed.

(** C3. The rows the parallel run returns are, as a multiset, the rows the
    serial run over each city's full series returns (they are the same list,
    in the same order); and one run raises exactly when the other does, with
    the same exception. *)
Theorem C3_partition_invariance (df : list Row) (window : Z) :
  analyze_all_cities_parallel df window = analyze_all_cities df window /\
  match analyze_all_cities_parallel df window, analyze_all_cities df window with
  | Ok par, Ok ser => Permutation par ser
  | Raise e, Raise e' => e = e'
  | _, _ => False
  end.
Proof.
  assert (E : analyze_all_cities_parallel df window
              = analyze_all_cities df window).
  { now rewrite analyze_all_cities_parallel_executor,
      analyze_all_cities_executor. }
  split; [exact E|]. rewrite E.
  destruct (analyze_all_cities df window); reflexivity.
Qed.

(** C6. If the analysis of one partition raises, the parallel run raises
    that exception and returns no merged frame.  The executor is
    all-or-nothing whatever its tasks do: when the tasks before [t] return
    and [t] raises, the call raises what [t] raised and builds no list of
    results, whether the tasks after [t] return or raise. *)
Theorem C6_all_or_nothing (df : list Row) (window : Z) (c : string) (e : exn) :
  In c (unique (map city df)) ->
  analyze_city (select_city df c) window = Raise e ->
  analyze_all_cities_parallel df window = Raise e /\
  (forall res, analyze_all_cities_parallel df window <> Ok res) /\
  (forall (f : list Row * Z -> result (list AnalyzedRow))
          (pre post : list (list Row * Z)) (t : list Row * Z) (e' : exn),
     Forall (fun x => exists r, f x = Ok r) pre ->
     f t = Raise e' ->
     executor_map f (pre ++ t :: post) = Raise e' /\
     forall rs, executor_map f (pre ++ t :: post) <> Ok rs).
Proof.
  intros Hc He.
  assert (Hpar : analyze_all_cities_parallel df window = Raise e).
  { rewrite analyze_all_cities_parallel_executor.
    destruct (executor_map_some_failure (analyze_partition df window)
                (tasks := unique (map city df)))
      as (c' & e' & Hin' & Hc' & Hmap).
    - apply Exists_exists. exists c. split; [exact Hc|]. now exists e.
    - rewrite Hmap. simpl.
      apply (@analyze_city_Raise_any _ _ (select_city df c')) in He;
        [|now apply select_city_nonempty].
      unfold analyze_partition in Hc'. congruence. }
  split; [exact Hpar|]. split; [intros res; rewrite Hpar; discriminate|].
  intros f pre post t e' Hpre Ht.
  rewrite (@executor_map_first_failure _ _ f pre post t e' Hpre Ht).
  split; [reflexivity|discriminate].
Qed.

End AllCities.

(** ** The seasonal classifier (claims C4, C5) *)

Lemma matches_true c s r : matches c s r = true <-> s_city r = c /\ s_season r = s.
Proof.
  unfold matches. rewrite andb_true_iff, !String.eqb_eq. reflexivity.
Qed.

Lemma filter_nil {A : Type} (p : A -> bool) (l : list A) :
  (forall x, In x l -> p x <> true) -> filter p l = [].
Proof.
  induction l as [|x l IH]; intros H; simpl; [reflexivity|].
  destruct (p x) eqn:E.
  - exfalso. apply (H x); [now left|exact E].
  - apply IH. intros y Hy. apply H. now right.
Qed.

Lemma classify_unfold (month_num : Z) (c : string) (t : R) table :
  check_current_temperature_anomaly month_num c t table =
  match filter (matches c (season_of_month month_num)) table with
  | [] => Raise IndexError
  | entry :: _ =>
      Ok (lt (of_R t) (sub (s_mean entry) (mul (of_R 2) (s_std entry)))
          || gt (of_R t) (add (s_mean entry) (mul (of_R 2) (s_std entry))))
  end.
Proof.
  unfold check_current_temperature_anomaly. fold (matches c (season_of_month month_num)).
  destruct (filter _ table) as [|entry rest]; simpl; [reflexivity|].
  now destruct (_ || _).
Qed.


Lemma matches64_true c s r :
  matches64 c s r = true <-> b_city r = c /\ b_season r = s.
Proof.
  unfold matches64. rewrite andb_true_iff, !String.eqb_eq. reflexivity.
Qed.

Lemma classify64_unfold (month_num : Z) (c : string) (t : Binary64.float64)
  table :
  check_current_temperature_anomaly64 month_num c t table =
  match filter (matches64 c (season_of_month month_num)) table with
  | [] => Raise IndexError
  | entry :: _ =>
      Ok (Binary64.ltb t
            (Binary64.sub (b_mean entry)
               (Binary64.mul (Binary64.of_Z 2) (b_std entry)))
          || Binary64.ltb
               (Binary64.add (b_mean entry)
                  (Binary64.mul (Binary64.of_Z 2) (b_std entry)))
               t)
  end.
Proof.
  unfold check_current_temperature_anomaly64.
  fold (matches64 c (season_of_month month_num)).
  destruct (filter _ table) as [|entry rest]; simpl; [reflexivity|].
  now destruct (_ || _).
Qed.

(** Comparisons with NaN are false, and NaN goes through the arithmetic. *)
Lemma ltb_nan_r (x : Binary64.float64) : Binary64.ltb x Binary64.nan = false.
Proof. destruct x; reflexivity. Qed.

Lemma ltb_nan_l (x : Binary64.float64) : Binary64.ltb Binary64.nan x = false.
Proof. destruct x; reflexivity. Qed.

Lemma mul_nan_r (x : Binary64.float64) :
  Binary64.mul x Binary64.nan = Binary64.nan.
Proof. destruct x; reflexivity. Qed.

Lemma sub_nan_r (x : Binary64.float64) :
  Binary64.sub x Binary64.nan = Binary64.nan.
Proof. destruct x; reflexivity. Qed.

Lemma add_nan_r (x : Binary64.float64) :
  Binary64.add x Binary64.nan = Binary64.nan.
Proof. destruct x; reflexivity. Qed.

Lemma is_nan_true (x : Binary64.float64) :
  Binary64.is_nan x = true -> x = Binary64.nan.
Proof. destruct x; try discriminate; reflexivity. Qed.

(** C4. The season is read off the month by the fixed table; when the
    baselines hold an entry for (city, that season), the classifier returns
    a boolean, which is true exactly when the live value is strictly below
    [mean - 2 * std] or strictly above [mean + 2 * std] of the (first such)
    entry, the two bounds being computed in binary64 as the program computes
    them; with a NaN among mean, deviation and live value it is false. *)
Theorem C4_classify_on_hit (month_num : Z) (c : string)
  (t : Binary64.float64) (pre post : list SeasonRow64) (entry : SeasonRow64) :
  (forall r, In r pre ->
     ~ (b_city r = c /\ b_season r = season_of_month month_num)) ->
  b_city entry = c ->
  b_season entry = season_of_month month_num ->
  (season_of_month 12 = "winter" /\ season_of_month 1 = "winter" /\
   season_of_month 2 = "winter" /\ season_of_month 3 = "spring" /\
   season_of_month 4 = "spring" /\ season_of_month 5 = "spring" /\
   season_of_month 6 = "summer" /\ season_of_month 7 = "summer" /\
   season_of_month 8 = "summer" /\ season_of_month 9 = "autumn" /\
   season_of_month 10 = "autumn" /\ season_of_month 11 = "autumn")%string /\
  let lower :=
    Binary64.sub (b_mean entry)
      (Binary64.mul (Binary64.of_Z 2) (b_std entry)) in
  let upper :=
    Binary64.add (b_mean entry)
      (Binary64.mul (Binary64.of_Z 2) (b_std entry)) in
  exists b,
    check_current_temperature_anomaly64 month_num c t (pre ++ entry :: post)
      = Ok b /\
    (b = true <-> Binary64.ltb t lower = true \/ Binary64.ltb upper t = true)
    /\
    (Binary64.is_nan (b_mean entry) || Binary64.is_nan (b_std entry)
     || Binary64.is_nan t = true -> b = false).
Proof.
  intros Hpre Hc Hs.
  split; [repeat split; reflexivity|].
  intros lower upper.
  rewrite classify64_unfold, filter_app.
  rewrite (filter_nil (matches64 c (season_of_month month_num)) pre)
    by (intros r Hr Hm; apply (Hpre r Hr), matches64_true, Hm).
  cbn [filter app].
  rewrite (proj2 (matches64_true c (season_of_month month_num) entry))
    by (split; assumption).
  fold lower upper.
  eexists; split; [reflexivity|]. split.
  - apply orb_true_iff.
  - intros Hnan. unfold lower, upper.
    apply orb_true_iff in Hnan as [Hnan|Hnan];
      [apply orb_true_iff in Hnan as [Hnan|Hnan]|];
      apply is_nan_true in Hnan; rewrite Hnan.
    + change (Binary64.sub Binary64.nan ?x) with Binary64.nan.
      change (Binary64.add Binary64.nan ?x) with Binary64.nan.
      now rewrite ltb_nan_r, ltb_nan_l.
    + now rewrite mul_nan_r, sub_nan_r, add_nan_r, ltb_nan_r, ltb_nan_l.
    + now rewrite ltb_nan_r, ltb_nan_l.
Qed.

(** C5. When the baselines hold no entry for (city, season of the month),
    the classifier raises (the [IndexError] of [.iloc[0]] on the empty
    selection) and returns no boolean: nothing else is looked up. *)
Theorem C5_classify_on_miss (month_num : Z) (c : string) (t : R)
  (table : list SeasonRow) :
  (forall r, In r table ->
     ~ (s_city r = c /\ s_season r = season_of_month month_num)) ->
  check_current_temperature_anomaly month_num c t table = Raise IndexError /\
  forall b, check_current_temperature_anomaly month_num c t table <> Ok b.
Proof.
  intros Hmiss.
  assert (E : check_current_temperature_anomaly month_num c t table
              = Raise IndexError).
  { rewrite classify_unfold.
    rewrite (filter_nil (matches c (season_of_month month_num)) table);
      [reflexivity|].
    intros r Hr Hm. apply (Hmiss r Hr), matches_true, Hm. }
  split; [exact E|]. intros b. rewrite E. discriminate.
Qed.

(** ** Seasonal baselines (claim C10) *)

Lemma key_eqb_eq (a b : key) : key_eqb a b = true <-> a = b.
Proof.
  destruct a as [a1 a2], b as [b1 b2]. unfold key_eqb; simpl.
  rewrite andb_true_iff, !String.eqb_eq. split.
  - intros [-> ->]. reflexivity.
  - intros [= -> ->]. split; reflexivity.
Qed.

Lemma in_unique_from {A : Type} (eqb : A -> A -> bool)
  (Heqb : forall a b, eqb a b = true <-> a = b) (l seen : list A) (k : A) :
  In k l -> ~ In k seen -> In k (unique_from eqb seen l).
Proof.
  revert seen; induction l as [|x l IH]; intros seen Hin Hseen; [inversion Hin|].
  simpl. destruct (existsb (eqb x) seen) eqn:E.
  - destruct Hin as [->|Hin]; [|now apply IH].
    apply existsb_exists in E as (y & Hy & Hxy).
    apply Heqb in Hxy. subst y. contradiction.
  - destruct Hin as [->|Hin]; [now left|].
    destruct (eqb x k) eqn:Exk.
    + apply Heqb in Exk. now left.
    + right. apply IH; [exact Hin|].
      intros [->|H]; [|contradiction].
      assert (eqb k k = true) by now apply Heqb. congruence.
Qed.

Lemma insert_key_perm (k : key) (l : list key) :
  Permutation (k :: l) (insert_key k l).
Proof.
  induction l as [|k' l IH]; simpl; [reflexivity|].
  destruct (key_leb k k'); [reflexivity|].
  rewrite perm_swap. now apply perm_skip.
Qed.

Lemma sort_keys_perm (l : list key) : Permutation l (sort_keys l).
Proof.
  induction l as [|k l IH]; simpl; [reflexivity|].
  etransitivity; [apply perm_skip, IH|apply insert_key_perm].
Qed.

Lemma in_group_keys (df : list Row) (r : Row) :
  In r df -> In (key_of r) (group_keys df).
Proof.
  intros Hr. unfold group_keys.
  eapply Permutation_in; [apply sort_keys_perm|].
  apply in_unique_from; [exact key_eqb_eq| |intros []].
  now apply in_map.
Qed.

(** The first selected element, when all selected elements are equal. *)
Lemma filter_head {A : Type} (p : A -> bool) (l : list A) (x : A) :
  In x l -> p x = true ->
  (forall y, In y l -> p y = true -> y = x) ->
  exists rest, filter p l = x :: rest.
Proof.
  induction l as [|a l IH]; intros Hin Hp Hall; [inversion Hin|].
  simpl. destruct (p a) eqn:Ea.
  - rewrite (Hall a (or_introl eq_refl) Ea). eauto.
  - destruct Hin as [->|Hin]; [congruence|].
    apply IH; [exact Hin|exact Hp|].
    intros y Hy. apply Hall. now right.
Qed.

(** C10. When a (city, season) pair has exactly one observation in the
    dataset, its seasonal baseline has the observation as mean and a NaN
    standard deviation, and the classifier, at a month of that season,
    returns false for every live value: it neither flags nor raises. *)
Theorem C10_single_observation (df : list Row) (c s : string) (obs : Row) :
  filter (fun r => key_eqb (key_of r) (c, s)) df = [obs] ->
  (exists entry,
     In entry (compute_season_stats df) /\
     s_city entry = c /\ s_season entry = s /\
     s_mean entry = Some (temperature obs) /\
     s_std entry = NaN) /\
  forall (month_num : Z) (t : R),
    season_of_month month_num = s ->
    check_current_temperature_anomaly month_num c t (compute_season_stats df)
    = Ok false.
Proof.
  intros Hone.
  assert (Hobs : In obs df /\ key_of obs = (c, s)).
  { assert (H : In obs (filter (fun r => key_eqb (key_of r) (c, s)) df))
      by (rewrite Hone; now left).
    apply filter_In in H as [H1 H2]. split; [exact H1|].
    now apply key_eqb_eq. }
  destruct Hobs as [Hin Hkey].
  set (entry := mkSeason c s (mean_of [temperature obs])
                         (std_of [temperature obs])).
  assert (Hentry : In entry (compute_season_stats df)).
  { unfold compute_season_stats. apply in_map_iff. exists (c, s).
    split; [|rewrite <- Hkey; now apply in_group_keys].
    unfold group_values. rewrite Hone. reflexivity. }
  assert (Hmean : s_mean entry = Some (temperature obs)).
  { unfold entry, mean_of; simpl. f_equal. lra. }
  split.
  - exists entry. repeat split; try assumption; reflexivity.
  - intros month_num t Hseason. rewrite classify_unfold, Hseason.
    destruct (filter_head (matches c s) (compute_season_stats df) (x := entry))
      as [rest ->].
    + exact Hentry.
    + apply matches_true. split; reflexivity.
    + intros y Hy Hm. apply matches_true in Hm as [Hyc Hys].
      unfold compute_season_stats in Hy. apply in_map_iff in Hy as (k & <- & _).
      simpl in Hyc, Hys. destruct k as [k1 k2]; simpl in *. subst k1 k2.
      unfold group_values. rewrite Hone. reflexivity.
    + rewrite Hmean. reflexivity.
Qed.

(** ** The order of the returned rows (claim C9) *)



(** With pairwise distinct timestamps there is one sorted arrangement. *)
Lemma sorted_perm_unique (l1 l2 : list Row) :
  StronglySorted by_timestamp l1 -> StronglySorted by_timestamp l2 ->
  Permutation l1 l2 -> NoDup (map timestamp l1) -> l1 = l2.
Proof.
  revert l2; induction l1 as [|a t1 IH]; intros l2 S1 S2 P N.
  - apply Permutation_nil in P. now subst.
  - destruct l2 as [|b t2];
      [apply Permutation_sym, Permutation_nil in P; discriminate|].
    inversion S1 as [|? ? S1' F1]; subst.
    inversion S2 as [|? ? S2' F2]; subst.
    inversion N as [|? ? Na N']; subst.
    assert (Hab : a = b).
    { assert (Ha : In a (b :: t2))
        by (eapply Permutation_in; [exact P|now left]).
      destruct Ha as [Ha|Ha]; [now symmetry|].
      assert (Hb : In b (a :: t1))
        by (eapply Permutation_in; [apply Permutation_sym, P|now left]).
      destruct Hb as [Hb|Hb]; [exact Hb|].
      exfalso. apply Na.
      pose proof (proj1 (Forall_forall _ _) F1 b Hb) as H1.
      pose proof (proj1 (Forall_forall _ _) F2 a Ha) as H2.
      unfold by_timestamp in H1, H2.
      replace (timestamp a) with (timestamp b) by lia.
      now apply in_map. }
    subst b. f_equal. apply IH; try assumption.
    eapply Permutation_cons_inv, P.
Qed.


Section Order.

Context {SV : SortValues}.


End Order.

Lemma berlin_timestamps_NoDup :
  NoDup (map timestamp (select_city sample_frame "Berlin")).
Proof.
  simpl. repeat (constructor; [simpl; intuition lia|]). constructor.
Qed.



(** On two rows of one timestamp the insertion sorter keeps the input
    order. *)
Example tied_frame_keeps_order :
  @sort_values stable_sorter tied_frame = tied_frame.
Proof. reflexivity. Qed.

(** ** The remaining claims on the sample frames *)

Lemma C4_witness :
  let pre := [mkSeason64 "CityA" "summer" (Binary64.of_Z 25) (Binary64.of_Z 3)] in
  let entry := mkSeason64 "CityA" "winter" (Binary64.of_Z 20) (Binary64.of_Z 5) in
  let post := [mkSeason64 "CityB" "winter" tenth tenth] in
  (forall r, In r pre ->
     ~ (b_city r = "CityA"%string /\ b_season r = season_of_month 1)) /\
  b_city entry = "CityA"%string /\
  b_season entry = season_of_month 1 /\
  let lower :=
    Binary64.sub (b_mean entry)
      (Binary64.mul (Binary64.of_Z 2) (b_std entry)) in
  let upper :=
    Binary64.add (b_mean entry)
      (Binary64.mul (Binary64.of_Z 2) (b_std entry)) in
  exists b,
    check_current_temperature_anomaly64 1 "CityA" (Binary64.of_Z 32)
      (pre ++ entry :: post) = Ok b /\
    (b = true <->
     Binary64.ltb (Binary64.of_Z 32) lower = true
     \/ Binary64.ltb upper (Binary64.of_Z 32) = true) /\
    (Binary64.is_nan (b_mean entry) || Binary64.is_nan (b_std entry)
     || Binary64.is_nan (Binary64.of_Z 32) = true -> b = false).
Proof.
  intros pre entry post.
  assert (Hpre : forall r, In r pre ->
            ~ (b_city r = "CityA"%string /\ b_season r = season_of_month 1)).
  { intros r [<-|[]] [_ H]. discriminate H. }
  split; [exact Hpre|]. split; [reflexivity|]. split; [reflexivity|].
  exact (proj2 (@C4_classify_on_hit 1 "CityA" (Binary64.of_Z 32)
                  pre post entry Hpre eq_refl eq_refl)).
Defined.

(** The classification example of the specification on doubles: against the
    baseline (mean 20, std 5) a live 32 is anomalous and a live 29 is
    not. *)
Example classify64_32_in_january :
  check_current_temperature_anomaly64 1 "CityA" (Binary64.of_Z 32)
    sample_baselines64 = Ok true.
Proof. vm_compute. reflexivity. Qed.

Example classify64_29_in_january :
  check_current_temperature_anomaly64 1 "CityA" (Binary64.of_Z 29)
    sample_baselines64 = Ok false.
Proof. vm_compute. reflexivity. Qed.

(** A live value that equals the rounded upper bound is not above it: with
    mean and deviation one tenth, the bound [0.1 + 2 * 0.1] rounds to
    0.30000000000000004, and that live value is classified as normal. *)
Example classify64_at_rounded_bound :
  Binary64.add tenth (Binary64.mul (Binary64.of_Z 2) tenth)
    = S754_finite false 5404319552844596 (-54) /\
  check_current_temperature_anomaly64 1 "CityB"
    (S754_finite false 5404319552844596 (-54)) sample_baselines64 = Ok false.
Proof. vm_compute. split; reflexivity. Qed.

(** The classification example of the specification: against the baseline
    (mean 20, std 5) a live 32 is anomalous and a live 29 is not. *)
Example classify_32_in_january :
  check_current_temperature_anomaly 1 "CityA" 32 sample_baselines = Ok true.
Proof.
  rewrite classify_unfold. simpl. unfold gt, lt, of_R, Rltb; simpl.
  destruct (Rlt_dec 32 (20 - 2 * 5)), (Rlt_dec (20 + 2 * 5) 32);
    try reflexivity; lra.
Qed.

Example classify_29_in_january :
  check_current_temperature_anomaly 1 "CityA" 29 sample_baselines = Ok false.
Proof.
  rewrite classify_unfold. simpl. unfold gt, lt, of_R, Rltb; simpl.
  destruct (Rlt_dec 29 (20 - 2 * 5)), (Rlt_dec (20 + 2 * 5) 29);
    try reflexivity; lra.
Qed.

Lemma C5_witness :
  (forall r, In r sample_baselines ->
     ~ (s_city r = "CityB"%string /\ s_season r = season_of_month 1)) /\
  check_current_temperature_anomaly 1 "CityB" 10 sample_baselines
    = Raise IndexError /\
  forall b,
    check_current_temperature_anomaly 1 "CityB" 10 sample_baselines <> Ok b.
Proof.
  assert (Hmiss : forall r, In r sample_baselines ->
            ~ (s_city r = "CityB"%string /\ s_season r = season_of_month 1)).
  { intros r [<-|[<-|[]]] [H _]; discriminate H. }
  split; [exact Hmiss|].
  exact (@C5_classify_on_miss 1 "CityB" 10 sample_baselines Hmiss).
Defined.

Lemma C6_witness :
  In "Berlin"%string (unique (map city sample_frame)) /\
  @analyze_city stable_sorter (select_city sample_frame "Berlin") int64_limit
    = Raise OverflowError /\
  @analyze_all_cities_parallel stable_sorter sample_frame int64_limit
    = Raise OverflowError /\
  (forall res,
     @analyze_all_cities_parallel stable_sorter sample_frame int64_limit
     <> Ok res) /\
  (forall (f : list Row * Z -> result (list AnalyzedRow))
          (pre post : list (list Row * Z)) (t : list Row * Z) (e' : exn),
     Forall (fun x => exists r, f x = Ok r) pre ->
     f t = Raise e' ->
     executor_map f (pre ++ t :: post) = Raise e' /\
     forall rs, executor_map f (pre ++ t :: post) <> Ok rs).
Proof.
  assert (Hin : In "Berlin"%string (unique (map city sample_frame)))
    by (left; reflexivity).
  split; [exact Hin|]. split; [reflexivity|].
  exact (@C6_all_or_nothing stable_sorter sample_frame int64_limit "Berlin"
           OverflowError Hin eq_refl).
Defined.

(** One task of three raises: the executor raises its exception and the
    results of the other two are not returned. *)
Example executor_map_partial_failure :
  executor_map
    (fun n : Z => if (n =? 2)%Z then Raise IndexError else Ok (n * 10)%Z)
    [1; 2; 3]%Z
  = Raise IndexError.
Proof. reflexivity. Qed.

Lemma C10_witness :
  filter (fun r => key_eqb (key_of r) ("Berlin", "spring")%string) sample_frame
    = [mkRow "Berlin" 4 5 "spring"] /\
  (exists entry,
     In entry (compute_season_stats sample_frame) /\
     s_city entry = "Berlin"%string /\ s_season entry = "spring"%string /\
     s_mean entry = Some 5%R /\
     s_std entry = NaN) /\
  forall (month_num : Z) (t : R),
    season_of_month month_num = "spring"%string ->
    check_current_temperature_anomaly month_num "Berlin" t
      (compute_season_stats sample_frame)
    = Ok false.
Proof.
  split; [reflexivity|].
  exact (@C10_single_observation sample_frame "Berlin" "spring"
           (mkRow "Berlin" 4 5 "spring") eq_refl).
Defined.

(** The group keys of the sample frame, in the order [groupby] lists them. *)
Example group_keys_sample :
  group_keys sample_frame
  = [("Berlin", "spring"); ("Berlin", "winter"); ("Cairo", "winter")]%string.
Proof. reflexivity. Qed.

(** The serial and the parallel run on the sample frame list Berlin's rows
    first (the city seen first), each city in timestamp order. *)
Example parallel_run_sample :
  exists res,
    @analyze_all_cities_parallel stable_sorter sample_frame 2 = Ok res /\
    @analyze_all_cities stable_sorter sample_frame 2 = Ok res /\
    map (fun r => (city (base r), timestamp (base r))) res
    = [("Berlin", 1); ("Berlin", 2); ("Berlin", 3); ("Berlin", 4);
       ("Cairo", 1); ("Cairo", 2)]%string%Z.
Proof.
  eexists. split; [reflexivity|]. split; reflexivity.
Qed.

(** Nothing to concatenate: on an empty frame both runs raise. *)
Example empty_frame_raises :
  @analyze_all_cities_parallel stable_sorter [] 2 = Raise ValueError /\
  @analyze_all_cities stable_sorter [] 2 = Raise ValueError.
Proof. split; reflexivity. Qed.

(** * Further properties of the analysis *)

(** ** Sums of squares *)





(** ** The rows of [analyze_city] *)

Section AnalyzeCityRows.

Context {SV : SortValues}.




End AnalyzeCityRows.



Section FlagProperties.

Context {SV : SortValues}.



(** X7. Sorting a frame before the call changes nothing when its
    timestamps are pairwise distinct: [analyze_city] on the sorted frame
    returns what it returns on the frame itself. *)
Theorem X7_presorted_input (df : list Row) (window : Z) :
  NoDup (map timestamp df) ->
  sort_values (sort_values df) = sort_values df /\
  analyze_city (sort_values df) window = analyze_city df window.
Proof.
  intros Hnd.
  assert (E : sort_values (sort_values df) = sort_values df).
  { apply sorted_perm_unique.
    - apply sort_values_sorted.
    - apply sort_values_sorted.
    - apply Permutation_sym, sort_values_perm.
    - eapply Permutation_NoDup; [|exact Hnd].
      apply Permutation_map.
      etransitivity; apply sort_values_perm. }
  split; [exact E|]. unfold analyze_city. now rewrite E.
Qed.

End FlagProperties.

(** ** The list of cities and the partitions *)

Lemma select_city_cons (r : Row) (df : list Row) (c : string) :
  select_city (r :: df) c =
  if String.eqb (city r) c then r :: select_city df c else select_city df c.
Proof. reflexivity. Qed.

Lemma select_city_city (df : list Row) (c : string) (r : Row) :
  In r (select_city df c) -> city r = c.
Proof.
  unfold select_city. intros H. apply filter_In in H as [_ H].
  now apply String.eqb_eq.
Qed.

Lemma concat_map_nil {A B : Type} (f : A -> list B) (l : list A) :
  (forall x, In x l -> f x = []) -> concat (map f l) = [].
Proof.
  induction l as [|x l IH]; intros H; simpl; [reflexivity|].
  rewrite (H x (or_introl eq_refl)), IH; [reflexivity|].
  intros y Hy. apply H. now right.
Qed.

(** Every row of the frame is in the partition of exactly one city. *)
Lemma partition_perm (df : list Row) (cs : list string) :
  NoDup cs -> (forall r, In r df -> In (city r) cs) ->
  Permutation df (concat (map (select_city df) cs)).
Proof.
  intros Hnd. induction df as [|r df IH]; intros Hall.
  - rewrite concat_map_nil; [reflexivity|]. reflexivity.
  - assert (Hr : In (city r) cs) by (apply Hall; now left).
    apply in_split in Hr as (l1 & l2 & ->).
    apply NoDup_remove_2 in Hnd as Hnot.
    assert (Hother : forall l, (forall c, In c l -> In c (l1 ++ l2)) ->
              map (select_city (r :: df)) l = map (select_city df) l).
    { intros l Hl. apply map_ext_in. intros c Hc. rewrite select_city_cons.
      destruct (String.eqb_spec (city r) c) as [E|E]; [|reflexivity].
      subst c. exfalso. apply Hnot, Hl, Hc. }
    rewrite map_app, concat_app. cbn [map concat].
    rewrite !Hother by (intros c Hc; apply in_or_app; tauto).
    rewrite select_city_cons, String.eqb_refl.
    specialize (IH (fun r' H => Hall r' (or_intror H))).
    rewrite map_app, concat_app in IH. cbn [map concat] in IH.
    rewrite <- app_comm_cons.
    apply Permutation_cons_app. exact IH.
Qed.

Lemma concat_perm_blocks {A B : Type} (f g : A -> list B) (l : list A) :
  (forall x, Permutation (f x) (g x)) ->
  Permutation (concat (map f l)) (concat (map g l)).
Proof.
  intros H. induction l as [|x l IH]; simpl; [reflexivity|].
  now apply Permutation_app.
Qed.

Lemma executor_map_all_Ok {A B : Type} (f : A -> result B) (tasks : list A) :
  (forall t, In t tasks -> exists r, f t = Ok r) ->
  exists rs, executor_map f tasks = Ok rs /\
             Forall2 (fun t r => f t = Ok r) tasks rs.
Proof.
  induction tasks as [|t tasks IH]; intros H; simpl.
  - exists []. split; [reflexivity|constructor].
  - destruct (H t (or_introl eq_refl)) as [r Hr].
    destruct IH as (rs & Hrs & HF); [intros t' Ht'; apply H; now right|].
    exists (r :: rs). rewrite Hr; simpl. rewrite Hrs; simpl.
    split; [reflexivity|]. constructor; assumption.
Qed.

(** ** The combined frame *)

Section CombinedFrame.

Context {SV : SortValues}.

Lemma sort_values_nil : sort_values [] = [].
Proof. apply Permutation_nil, sort_values_perm. Qed.

(** With a window that is not negative and fits 64 bits and a frame that
    is not empty, both runs return the per-city frames, concatenated in the
    order the cities first appear. *)
Lemma all_cities_Ok (df : list Row) (window : Z) :
  (0 <= window < int64_limit)%Z -> df <> [] ->
  exists rs,
    Forall2 (fun c part => analyze_city (select_city df c) window = Ok part)
            (unique (map city df)) rs /\
    analyze_all_cities df window = Ok (concat rs) /\
    analyze_all_cities_parallel df window = Ok (concat rs).
Proof.
  intros Hw Hdf.
  destruct (executor_map_all_Ok (analyze_partition df window)
              (unique (map city df))) as (rs & Hrs & HF).
  { intros c _. apply analyze_city_Ok, Hw. }
  exists rs. split; [exact HF|].
  assert (Hne : rs <> []).
  { destruct df as [|r df]; [contradiction|].
    intros ->. apply Forall2_length, length_zero_iff_nil in HF.
    assert (Hin : In (city r) (unique (map city (r :: df))))
      by (apply unique_In; now left).
    rewrite HF in Hin. exact Hin. }
  rewrite analyze_all_cities_parallel_executor, analyze_all_cities_executor,
    Hrs. simpl. destruct rs; [contradiction|]. split; reflexivity.
Qed.

Lemma blocks_base (df : list Row) (window : Z) (cs : list string) rs :
  Forall2 (fun c part => analyze_city (select_city df c) window = Ok part)
          cs rs ->
  map (map base) rs = map (fun c => sort_values (select_city df c)) cs.
Proof.
  induction 1 as [|c part cs rs Hc _ IH]; simpl; [reflexivity|].
  now rewrite (analyze_city_base _ _ Hc), IH.
Qed.

(** What the serial run returns or raises, case by case. *)
Lemma run_cases (df : list Row) (window : Z) :
  (df = [] /\ analyze_all_cities df window = Raise ValueError) \/
  (df <> [] /\ (window < 0)%Z /\
   analyze_all_cities df window = Raise ValueError) \/
  (df <> [] /\ (int64_limit <= window)%Z /\
   analyze_all_cities df window = Raise OverflowError) \/
  (df <> [] /\ (0 <= window < int64_limit)%Z /\
   exists res, analyze_all_cities df window = Ok res).
Proof.
  destruct df as [|r df]; [left; split; reflexivity|]. right.
  assert (Hne : r :: df <> []) by discriminate.
  assert (Hfirst : forall e,
            analyze_city (select_city (r :: df) (city r)) window = Raise e ->
            analyze_all_cities (r :: df) window = Raise e).
  { intros e He. rewrite analyze_all_cities_executor.
    unfold unique; simpl. unfold analyze_partition at 1.
    now rewrite He. }
  destruct (Z_lt_le_dec window 0) as [Hneg|Hw].
  - left. split; [exact Hne|]. split; [exact Hneg|].
    apply Hfirst, analyze_city_negative, Hneg.
  - right. destruct (Z_lt_le_dec window int64_limit) as [Hfit|Hbig].
    + right. split; [exact Hne|]. split; [lia|].
      destruct (@all_cities_Ok (r :: df) window) as (rs & _ & Hs & _);
        [lia|exact Hne|eauto].
    + left. split; [exact Hne|]. split; [exact Hbig|].
      apply Hfirst, analyze_city_overflow; [|exact Hbig].
      apply select_city_nonempty, unique_In. now left.
Qed.

(** X4. Either run raises [ValueError] exactly when the frame is empty or
    the window is negative, raises [OverflowError] exactly when the frame is
    not empty and the window does not fit 64 bits, and returns otherwise. *)
Theorem X4_run_raises_iff (df : list Row) (window : Z) :
  (analyze_all_cities df window = Raise ValueError
     <-> df = [] \/ (window < 0)%Z) /\
  (analyze_all_cities df window = Raise OverflowError
     <-> df <> [] /\ (int64_limit <= window)%Z) /\
  ((exists res, analyze_all_cities df window = Ok res)
     <-> df <> [] /\ (0 <= window < int64_limit)%Z) /\
  (analyze_all_cities_parallel df window = Raise ValueError
     <-> df = [] \/ (window < 0)%Z) /\
  (analyze_all_cities_parallel df window = Raise OverflowError
     <-> df <> [] /\ (int64_limit <= window)%Z) /\
  ((exists res, analyze_all_cities_parallel df window = Ok res)
     <-> df <> [] /\ (0 <= window < int64_limit)%Z).
Proof.
  assert (E : analyze_all_cities_parallel df window
              = analyze_all_cities df window).
  { now rewrite analyze_all_cities_parallel_executor,
      analyze_all_cities_executor. }
  rewrite E.
  assert (H : (analyze_all_cities df window = Raise ValueError
                 <-> df = [] \/ (window < 0)%Z) /\
              (analyze_all_cities df window = Raise OverflowError
                 <-> df <> [] /\ (int64_limit <= window)%Z) /\
              ((exists res, analyze_all_cities df window = Ok res)
                 <-> df <> [] /\ (0 <= window < int64_limit)%Z)).
  { unfold int64_limit in *.
    destruct (run_cases df window)
      as [[Hdf Hr]|[(Hdf & Hw & Hr)|[(Hdf & Hw & Hr)|(Hdf & Hw & res & Hr)]]];
      unfold int64_limit in *; rewrite Hr;
      (split; [|split]); split;
      try discriminate; try tauto; try (intros [? ?]; try discriminate);
      try (intros; exfalso; lia); try (intros _; tauto);
      try (intros; split; [tauto|lia]); try (intros [? | ?]; [tauto|lia]);
      eauto; try tauto; try lia. }
  destruct H as (H1 & H2 & H3).
  exact (conj H1 (conj H2 (conj H3 (conj H1 (conj H2 H3))))).
Qed.

(** X5. For a window that is not negative and fits 64 bits and a frame that
    is not empty, the runs return and the combined frame holds every input row
    exactly once: its rows are the input rows rearranged, city after city in
    the order the cities first appear, each city in timestamp order. *)
Theorem X5_combined_frame_covers_rows (df : list Row) (window : Z) :
  (0 <= window < int64_limit)%Z -> df <> [] ->
  exists res,
    analyze_all_cities df window = Ok res /\
    analyze_all_cities_parallel df window = Ok res /\
    map base res =
      concat (map (fun c => sort_values (select_city df c))
                  (unique (map city df))) /\
    Permutation df (map base res) /\
    length res = length df.
Proof.
  intros Hw Hdf.
  destruct (all_cities_Ok Hw Hdf) as (rs & HF & Hs & Hp).
  exists (concat rs). split; [exact Hs|]. split; [exact Hp|].
  assert (Hbase : map base (concat rs) =
            concat (map (fun c => sort_values (select_city df c))
                        (unique (map city df)))).
  { rewrite concat_map. f_equal. eapply blocks_base, HF. }
  assert (Hperm : Permutation df (map base (concat rs))).
  { rewrite Hbase.
    etransitivity;
      [apply (partition_perm df (unique_NoDup (map city df)))|].
    - intros r Hr. apply unique_In. now apply in_map.
    - apply concat_perm_blocks. intros c. apply sort_values_perm. }
  split; [exact Hbase|]. split; [exact Hperm|].
  rewrite <- (length_map base). symmetry. now apply Permutation_length.
Qed.

Lemma filter_block (df : list Row) (window : Z) (c c' : string) part :
  analyze_city (select_city df c') window = Ok part ->
  filter (fun r => String.eqb (city (base r)) c) part =
  if String.eqb c' c then part else [].
Proof.
  intros Hpart.
  assert (Hcity : forall r, In r part -> city (base r) = c').
  { intros r Hr. apply (select_city_city df).
    eapply Permutation_in; [apply Permutation_sym, sort_values_perm|].
    rewrite <- (analyze_city_base _ _ Hpart). now apply in_map. }
  destruct (String.eqb_spec c' c) as [->|Hne].
  - apply forallb_filter_id, forallb_forall. intros r Hr.
    apply String.eqb_eq. now apply Hcity.
  - apply filter_nil. intros r Hr H. apply String.eqb_eq in H.
    apply Hne. rewrite <- H. symmetry. now apply Hcity.
Qed.

Lemma filter_blocks_absent (df : list Row) (window : Z) (c : string) cs rs :
  Forall2 (fun c' part => analyze_city (select_city df c') window = Ok part)
          cs rs ->
  ~ In c cs ->
  concat (map (filter (fun r => String.eqb (city (base r)) c)) rs) = [].
Proof.
  induction 1 as [|c' part cs rs Hc' _ IH]; intros Hnot; simpl;
    [reflexivity|].
  rewrite (@filter_block _ _ c _ _ Hc').
  destruct (String.eqb_spec c' c) as [->|_];
    [exfalso; apply Hnot; now left|].
  apply IH. intros H. apply Hnot. now right.
Qed.

(** X6. For a window that is not negative and fits 64 bits, the rows of one
    city in the combined frame are exactly the frame
    [analyze_city] returns for that city's rows alone: the statistics of a
    city do not depend on the rows of the other cities. *)
Theorem X6_city_rows_of_combined_frame (df : list Row) (window : Z)
  (c : string) :
  (0 <= window < int64_limit)%Z -> In c (map city df) ->
  exists res part,
    analyze_all_cities_parallel df window = Ok res /\
    analyze_all_cities df window = Ok res /\
    analyze_city (select_city df c) window = Ok part /\
    filter (fun r => String.eqb (city (base r)) c) res = part.
Proof.
  intros Hw Hc.
  assert (Hdf : df <> []) by (intros ->; inversion Hc).
  destruct (all_cities_Ok Hw Hdf) as (rs & HF & Hs & Hp).
  destruct (analyze_city_Ok (select_city df c) Hw) as [part Hpart].
  exists (concat rs), part.
  split; [exact Hp|]. split; [exact Hs|]. split; [exact Hpart|].
  rewrite <- concat_filter_map.
  pose proof (unique_NoDup (map city df)) as Hnd.
  apply unique_In in Hc. clear Hs Hp Hdf.
  set (cs := unique (map city df)) in *. clearbody cs.
  revert Hnd Hc. induction HF as [|c' part' cs rs' Hc' HF IH]; intros Hnd Hc;
    [inversion Hc|].
  inversion Hnd as [|? ? Hnot Hnd']; subst. simpl.
  rewrite (@filter_block _ _ c _ _ Hc').
  destruct (String.eqb_spec c' c) as [->|Hne].
  - assert (part' = part) by congruence. subst part'.
    rewrite (@filter_blocks_absent _ _ c _ _ HF Hnot). apply app_nil_r.
  - destruct Hc as [Hc|Hc]; [contradiction|].
    simpl. apply IH; assumption.
Qed.

End CombinedFrame.

(** ** The table of seasonal baselines *)

Lemma season_stats_keys (df : list Row) :
  map entry_key (compute_season_stats df) = group_keys df.
Proof.
  unfold compute_season_stats. rewrite map_map. unfold entry_key; simpl.
  rewrite <- (map_id (group_keys df)) at 2.
  apply map_ext. now intros [k1 k2].
Qed.

Lemma group_keys_NoDup (df : list Row) : NoDup (group_keys df).
Proof.
  unfold group_keys. eapply Permutation_NoDup; [apply sort_keys_perm|].
  apply (unique_from_spec key_eqb key_eqb_eq).
Qed.

Lemma group_keys_In (df : list Row) (k : key) :
  In k (group_keys df) <-> exists r, In r df /\ key_of r = k.
Proof.
  unfold group_keys. split.
  - intros H. eapply Permutation_in in H;
      [|apply Permutation_sym, sort_keys_perm].
    apply (unique_from_spec key_eqb key_eqb_eq) in H as [H _].
    apply in_map_iff in H as (r & Hr & Hin). eauto.
  - intros (r & Hin & <-). now apply in_group_keys.
Qed.




Lemma season_stats_entry (df : list Row) (e : SeasonRow) :
  In e (compute_season_stats df) <->
  In (entry_key e) (group_keys df) /\
  e = mkSeason (s_city e) (s_season e)
        (mean_of (group_values df (entry_key e)))
        (std_of (group_values df (entry_key e))).
Proof.
  unfold compute_season_stats. rewrite in_map_iff. split.
  - intros ([k1 k2] & <- & Hk). split; [exact Hk|reflexivity].
  - intros [Hk He]. exists (entry_key e). split; [|exact Hk].
    symmetry. exact He.
Qed.

(** The classifier's selection from the table built from [df]. *)
Lemma select_built (df : list Row) (c s : string) :
  (exists r, In r df /\ city r = c /\ season r = s) ->
  exists rest,
    filter (matches c s) (compute_season_stats df) =
    mkSeason c s (mean_of (group_values df (c, s)))
             (std_of (group_values df (c, s))) :: rest.
Proof.
  intros (r & Hin & Hc & Hs). apply filter_head.
  - apply season_stats_entry. simpl. split; [|reflexivity].
    apply group_keys_In. exists r. split; [exact Hin|].
    unfold key_of. now rewrite Hc, Hs.
  - apply matches_true. split; reflexivity.
  - intros e He Hm. apply matches_true in Hm as [Hec Hes].
    apply season_stats_entry in He as [_ He].
    rewrite He. unfold entry_key. now rewrite Hec, Hes.
Qed.

Lemma select_built_none (df : list Row) (c s : string) :
  (forall r, In r df -> ~ (city r = c /\ season r = s)) ->
  filter (matches c s) (compute_season_stats df) = [].
Proof.
  intros Hnone. apply filter_nil. intros e He Hm.
  apply matches_true in Hm as [Hec Hes].
  apply season_stats_entry in He as [Hk _].
  apply group_keys_In in Hk as (r & Hin & Hr).
  apply (Hnone r Hin). unfold key_of, entry_key in Hr.
  injection Hr as H1 H2. split; congruence.
Qed.

(** X8. The table of seasonal baselines has one row for each (city, season)
    pair that occurs in the frame, and no other row. *)
Theorem X8_one_entry_per_observed_pair (df : list Row) :
  NoDup (map entry_key (compute_season_stats df)) /\
  forall c s,
    (exists e, In e (compute_season_stats df) /\ s_city e = c /\ s_season e = s)
    <-> (exists r, In r df /\ city r = c /\ season r = s).
Proof.
  split; [rewrite season_stats_keys; apply group_keys_NoDup|].
  intros c s. split.
  - intros (e & He & Hc & Hs).
    apply season_stats_entry in He as [Hk _].
    apply group_keys_In in Hk as (r & Hin & Hr).
    exists r. unfold key_of, entry_key in Hr. injection Hr as H1 H2.
    split; [exact Hin|]. split; congruence.
  - intros Hex. destruct (select_built df Hex) as [rest Hsel].
    exists (mkSeason c s (mean_of (group_values df (c, s)))
                     (std_of (group_values df (c, s)))).
    split; [|split; reflexivity].
    assert (H : In (mkSeason c s (mean_of (group_values df (c, s)))
                             (std_of (group_values df (c, s))))
                   (filter (matches c s) (compute_season_stats df)))
      by (rewrite Hsel; now left).
    now apply filter_In in H.
Qed.


(** X10. Against the table built from a frame, the classifier raises
    (IndexError) exactly when the frame has no row for the city in the
    season of the month, and returns a boolean exactly when it has one. *)
Theorem X10_built_table_lookup (df : list Row) (month_num : Z) (c : string)
  (t : R) :
  (check_current_temperature_anomaly month_num c t (compute_season_stats df)
     = Raise IndexError
   <-> forall r, In r df ->
         ~ (city r = c /\ season r = season_of_month month_num)) /\
  ((exists b,
      check_current_temperature_anomaly month_num c t (compute_season_stats df)
      = Ok b)
   <-> exists r, In r df /\ city r = c /\ season r = season_of_month month_num).
Proof.
  rewrite classify_unfold.
  assert (Hhit : (exists r, In r df /\ city r = c /\
                            season r = season_of_month month_num) ->
                 exists e rest,
                   filter (matches c (season_of_month month_num))
                          (compute_season_stats df) = e :: rest).
  { intros Hex. destruct (select_built df Hex) as [rest ->]. eauto. }
  split; split.
  - intros Hraise r Hin Hr.
    destruct Hhit as (e & rest & Hsel); [eauto|].
    rewrite Hsel in Hraise. discriminate.
  - intros Hnone. now rewrite (select_built_none df Hnone).
  - intros [b Hb].
    destruct (filter _ (compute_season_stats df)) as [|e rest] eqn:Hsel;
      [discriminate|].
    assert (He : In e (filter (matches c (season_of_month month_num))
                              (compute_season_stats df)))
      by (rewrite Hsel; now left).
    apply filter_In in He as [He Hm]. apply matches_true in Hm as [Hc Hs].
    apply season_stats_entry in He as [Hk _].
    apply group_keys_In in Hk as (r & Hin & Hr).
    exists r. unfold key_of, entry_key in Hr. injection Hr as H1 H2.
    split; [exact Hin|]. split; congruence.
  - intros Hex. destruct (Hhit Hex) as (e & rest & ->). eauto.
Qed.


(** ** The weather section of the page *)

Lemma prefix_app (s t : string) : String.prefix s (s ++ t) = true.
Proof.
  induction s as [|a s IH]; simpl; [now destruct t|].
  destruct (Ascii.ascii_dec a a) as [_|Hne]; [exact IH|contradiction].
Qed.

Lemma contains_prefix (needle hay : string) :
  String.prefix needle hay = true -> contains needle hay = true.
Proof. intros H. destruct hay; cbn [contains]; rewrite H; reflexivity. Qed.

Lemma contains_app_r (needle a b : string) :
  contains needle b = true -> contains needle (a ++ b) = true.
Proof.
  intros H. induction a as [|ch a IH]; simpl; [exact H|].
  rewrite IH. apply orb_true_r.
Qed.

Lemma contains_message (response : Response) :
  contains "401" (text response) = true ->
  contains "401" (http_error_message response) = true.
Proof.
  intros H. unfold http_error_message.
  now repeat apply contains_app_r.
Qed.

(** X13. With a key entered and a city selected, a reply with status 401
    makes the section report a bad API key, whatever the reply's text. *)
Theorem X13_status_401_reports_bad_key
  (requests_get : string -> string -> Response) (month_num : Z)
  (df : list Row) (c api_key : string) :
  api_key <> EmptyString ->
  status_code (requests_get c api_key) = 401%Z ->
  weather_section requests_get month_num df (Some c) api_key
  = Returned ErrorBadKey.
Proof.
  intros Hkey Hstatus. unfold weather_section.
  destruct api_key as [|a k]; [contradiction|].
  unfold get_current_temperature_sync. rewrite Hstatus. simpl negb. cbv iota.
  unfold http_error_message. rewrite Hstatus.
  change (str_of_int 401) with "401"%string.
  rewrite contains_app_r; [reflexivity|].
  apply contains_prefix, prefix_app.
Qed.

(** X14. A reply with any status other than 200 whose text mentions 401 is
    reported as a bad API key too. *)
Theorem X14_text_with_401_reports_bad_key
  (requests_get : string -> string -> Response) (month_num : Z)
  (df : list Row) (c api_key : string) :
  api_key <> EmptyString ->
  status_code (requests_get c api_key) <> 200%Z ->
  contains "401" (text (requests_get c api_key)) = true ->
  weather_section requests_get month_num df (Some c) api_key
  = Returned ErrorBadKey.
Proof.
  intros Hkey Hstatus Htext. unfold weather_section.
  destruct api_key as [|a k]; [contradiction|].
  unfold get_current_temperature_sync.
  destruct (Z.eqb_spec (status_code (requests_get c (String a k))) 200)
    as [E|_]; [contradiction|].
  simpl negb. cbv iota.
  now rewrite (contains_message _ Htext).
Qed.

(** X15. When the service returns a temperature and the frame has no row
    for the selected city in the season of the month, the [IndexError] of
    the classifier leaves the section: the handler only catches
    [RuntimeError]. *)
Theorem X15_missing_season_is_not_caught
  (requests_get : string -> string -> Response) (month_num : Z)
  (df : list Row) (c api_key : string) (temp : R) :
  api_key <> EmptyString ->
  status_code (requests_get c api_key) = 200%Z ->
  main_temp (requests_get c api_key) = Some temp ->
  (forall r, In r df ->
     ~ (city r = c /\ season r = season_of_month month_num)) ->
  weather_section requests_get month_num df (Some c) api_key
  = Raised (AnalysisError IndexError).
Proof.
  intros Hkey Hstatus Htemp Hnone. unfold weather_section.
  destruct api_key as [|a k]; [contradiction|].
  unfold get_current_temperature_sync. rewrite Hstatus, Htemp. simpl negb.
  cbv iota. rewrite classify_unfold, (select_built_none df Hnone).
  reflexivity.
Qed.

(** X16. With a key entered and a city selected, every reply with a status
    other than 200 ends as an error message on the page and no exception
    leaves the section: the bad-key message when the text
    "HTTP error <status>: <text>" contains "401", and otherwise the weather
    error message carrying that text. *)
Theorem X16_runtime_errors_are_handled
  (requests_get : string -> string -> Response) (month_num : Z)
  (df : list Row) (c api_key : string) :
  api_key <> EmptyString ->
  status_code (requests_get c api_key) <> 200%Z ->
  let msg := http_error_message (requests_get c api_key) in
  get_current_temperature_sync requests_get c api_key
    = Raised (RuntimeError msg) /\
  weather_section requests_get month_num df (Some c) api_key
    = Returned (if contains "401" msg then ErrorBadKey else ErrorWeather msg).
Proof.
  intros Hkey Hstatus msg.
  assert (Hget : get_current_temperature_sync requests_get c api_key
                 = Raised (RuntimeError msg)).
  { unfold get_current_temperature_sync.
    destruct (Z.eqb_spec (status_code (requests_get c api_key)) 200)
      as [E|_]; [contradiction|reflexivity]. }
  split; [exact Hget|]. unfold weather_section.
  destruct api_key as [|a k]; [contradiction|].
  rewrite Hget. now destruct (contains "401" msg).
Qed.

(** ** The further properties on the sample frames *)


Lemma X5_witness :
  (0 <= 2 < int64_limit)%Z /\ sample_frame <> [] /\
  exists res,
    @analyze_all_cities stable_sorter sample_frame 2 = Ok res /\
    @analyze_all_cities_parallel stable_sorter sample_frame 2 = Ok res /\
    map base res =
      concat (map (fun c => @sort_values stable_sorter
                              (select_city sample_frame c))
                  (unique (map city sample_frame))) /\
    Permutation sample_frame (map base res) /\
    length res = length sample_frame.
Proof.
  split; [unfold int64_limit; lia|]. split; [discriminate|].
  apply (@X5_combined_frame_covers_rows stable_sorter sample_frame 2);
    [unfold int64_limit; lia|discriminate].
Defined.

Lemma X6_witness :
  (0 <= 2 < int64_limit)%Z /\ In "Cairo"%string (map city sample_frame) /\
  exists res part,
    @analyze_all_cities_parallel stable_sorter sample_frame 2 = Ok res /\
    @analyze_all_cities stable_sorter sample_frame 2 = Ok res /\
    @analyze_city stable_sorter (select_city sample_frame "Cairo") 2
      = Ok part /\
    filter (fun r => String.eqb (city (base r)) "Cairo") res = part.
Proof.
  assert (Hin : In "Cairo"%string (map city sample_frame))
    by (right; left; reflexivity).
  split; [unfold int64_limit; lia|]. split; [exact Hin|].
  apply (@X6_city_rows_of_combined_frame stable_sorter sample_frame 2 "Cairo");
    [unfold int64_limit; lia|exact Hin].
Defined.

Lemma X7_witness :
  NoDup (map timestamp (select_city sample_frame "Berlin")) /\
  @sort_values stable_sorter
    (@sort_values stable_sorter (select_city sample_frame "Berlin"))
  = @sort_values stable_sorter (select_city sample_frame "Berlin") /\
  @analyze_city stable_sorter
    (@sort_values stable_sorter (select_city sample_frame "Berlin")) 30
  = @analyze_city stable_sorter (select_city sample_frame "Berlin") 30.
Proof.
  split; [exact berlin_timestamps_NoDup|].
  apply (@X7_presorted_input stable_sorter
           (select_city sample_frame "Berlin") 30).
  exact berlin_timestamps_NoDup.
Defined.



Lemma X13_witness :
  "key"%string <> EmptyString /\
  status_code (reply_unauthorized "Berlin" "key") = 401%Z /\
  weather_section reply_unauthorized 1 sample_frame (Some "Berlin"%string) "key"
  = Returned ErrorBadKey.
Proof.
  split; [discriminate|]. split; [reflexivity|].
  apply (@X13_status_401_reports_bad_key reply_unauthorized 1 sample_frame
           "Berlin" "key"); [discriminate|reflexivity].
Defined.

Lemma X14_witness :
  "key"%string <> EmptyString /\
  status_code (reply_server_error "Berlin" "key") <> 200%Z /\
  contains "401" (text (reply_server_error "Berlin" "key")) = true /\
  weather_section reply_server_error 1 sample_frame (Some "Berlin"%string) "key"
  = Returned ErrorBadKey.
Proof.
  split; [discriminate|]. split; [discriminate|]. split; [reflexivity|].
  apply (@X14_text_with_401_reports_bad_key reply_server_error 1 sample_frame
           "Berlin" "key"); [discriminate|discriminate|reflexivity].
Defined.

Lemma cairo_has_no_summer (r : Row) :
  In r sample_frame ->
  ~ (city r = "Cairo"%string /\ season r = season_of_month 7).
Proof.
  intros Hin [Hc Hs]. simpl in Hin.
  repeat (destruct Hin as [<-|Hin]; [discriminate|]). exact Hin.
Qed.

Lemma X15_witness :
  "key"%string <> EmptyString /\
  status_code (reply_temperature "Cairo" "key") = 200%Z /\
  main_temp (reply_temperature "Cairo" "key") = Some 21%R /\
  (forall r, In r sample_frame ->
     ~ (city r = "Cairo"%string /\ season r = season_of_month 7)) /\
  weather_section reply_temperature 7 sample_frame (Some "Cairo"%string) "key"
  = Raised (AnalysisError IndexError).
Proof.
  split; [discriminate|]. split; [reflexivity|]. split; [reflexivity|].
  split; [exact cairo_has_no_summer|].
  apply (@X15_missing_season_is_not_caught reply_temperature 7 sample_frame
           "Cairo" "key" 21%R);
    [discriminate|reflexivity|reflexivity|exact cairo_has_no_summer].
Defined.

Lemma X16_witness :
  "key"%string <> EmptyString /\
  status_code (reply_not_found "Atlantis" "key") <> 200%Z /\
  let msg := http_error_message (reply_not_found "Atlantis" "key") in
  get_current_temperature_sync reply_not_found "Atlantis" "key"
    = Raised (RuntimeError msg) /\
  weather_section reply_not_found 1 sample_frame (Some "Atlantis"%string) "key"
    = Returned (if contains "401" msg then ErrorBadKey else ErrorWeather msg).
Proof.
  split; [discriminate|]. split; [discriminate|].
  apply (@X16_runtime_errors_are_handled reply_not_found 1 sample_frame
           "Atlantis" "key"); discriminate.
Defined.

(** A city the service does not know is reported with the service's
    text. *)
Example not_found_is_reported :
  weather_section reply_not_found 1 sample_frame (Some "Atlantis"%string) "key"
  = Returned (ErrorWeather "HTTP error 404: city not found").
Proof. reflexivity. Qed.

(** ** The order of the input rows *)

Section RowOrder.

Context {SV : SortValues}.

(** X18. When the timestamps are pairwise distinct, [analyze_city] returns
    the same frame for the same rows given in any order. *)
Theorem X18_row_order_irrelevant (df df' : list Row) (window : Z) :
  Permutation df df' -> NoDup (map timestamp df) ->
  analyze_city df window = analyze_city df' window.
Proof.
  intros Hperm Hnd.
  assert (E : sort_values df = sort_values df').
  { apply sorted_perm_unique.
    - apply sort_values_sorted.
    - apply sort_values_sorted.
    - etransitivity; [apply Permutation_sym, sort_values_perm|].
      etransitivity; [exact Hperm|apply sort_values_perm].
    - eapply Permutation_NoDup; [|exact Hnd].
      apply Permutation_map, sort_values_perm. }
  unfold analyze_city. now rewrite E.
Qed.

End RowOrder.

Lemma X18_witness :
  Permutation (select_city sample_frame "Berlin")
              (rev (select_city sample_frame "Berlin")) /\
  NoDup (map timestamp (select_city sample_frame "Berlin")) /\
  @analyze_city stable_sorter (select_city sample_frame "Berlin") 30
  = @analyze_city stable_sorter
      (rev (select_city sample_frame "Berlin")) 30.
Proof.
  split; [apply Permutation_rev|].
  split; [exact berlin_timestamps_NoDup|].
  apply (@X18_row_order_irrelevant stable_sorter
           (select_city sample_frame "Berlin")
           (rev (select_city sample_frame "Berlin")) 30);
    [apply Permutation_rev|exact berlin_timestamps_NoDup].
Defined.

(** ** Where the rolling claims fail *)


(** The whole rolling mean of that series on doubles: absent below the
    window, 3333333333333334 at positions 2 and 3, and 5/3 at position 4. *)
Example roll_mean64_cancelling_series :
  rolling_mean64 cancelling_series 3
  = [Binary64.nan; Binary64.nan;
     Binary64.of_Z 3333333333333334; Binary64.of_Z 3333333333333334;
     Binary64.div (Binary64.of_Z 5) (Binary64.of_Z 3)].
Proof. vm_compute. reflexivity. Qed.


(** An empty frame is returned as it is, also for a window beyond 64
    bits. *)
Example empty_frame_any_window :
  @analyze_city stable_sorter [] int64_limit = Ok [].
Proof. reflexivity. Qed.
